(** * mcp-ffmpeg: the MCP tool server and the HTTP upload API

    A shallow embedding of [src/mcp-ffmpeg.ts] (the MCP server) and of
    [controllers/ffmpegController.js] and [server.js] (the HTTP API).

    The handlers only build command lines, consult the file system, ask the
    desktop notifier and start [ffmpeg]/[ffprobe].  They are embedded as
    computations over an abstract host: every call that leaves the process
    is answered by the host and recorded, in order, in a trace of events. *)

From Stdlib Require Import String Ascii List Bool Arith Lia DecimalString.
From Stdlib Require DecimalNat DecimalFacts.
Import ListNotations.
Open Scope string_scope.

Set Implicit Arguments.

(** ** Strings *)

(** The double quote and the line feed of the template literals. *)
Definition dq : string := String (ascii_of_nat 34) EmptyString.
Definition nl : string := String (ascii_of_nat 10) EmptyString.

(** [`${n}`] for a non-negative integer. *)
Definition show_nat (n : nat) : string :=
  NilEmpty.string_of_uint (Nat.to_uint n).

(** [xs.join(sep)] *)
Definition join (sep : string) (xs : list string) : string :=
  String.concat sep xs.

(** [xs.includes(x)] on strings *)
Definition includes (xs : list string) (x : string) : bool :=
  existsb (String.eqb x) xs.

(** JavaScript truthiness of an optional string: [undefined] and [''] are
    falsy. *)
Definition truthy (o : option string) : bool :=
  match o with
  | Some s => negb (String.eqb s "")
  | None => false
  end.

(** [a || b] on optional strings. *)
Definition js_or (a b : option string) : option string :=
  if truthy a then a else b.

(** ** What Node provides

    The pure library functions the handlers call.  [describe_streams]
    stands for [JSON.parse] followed by the formatting of the probe output
    (it divides and rounds floating-point numbers); it may throw. *)

#[warnings="-register-all"]
Inductive JSON : Type :=
| JNull
| JBool (b : bool)
| JNum (literal : string)
| JStr (s : string)
| JArr (items : list JSON)
| JObj (fields : list (string * JSON)).

Inductive Settled (A : Type) : Type :=
| Fulfilled (a : A)
| Rejected (message : string).
Arguments Fulfilled {A} a.
Arguments Rejected {A} message.

Class NodeLib : Type := {
  path_resolve : string -> string;
  path_basename : string -> string;
  path_basename_ext : string -> string -> string;
  path_extname : string -> string;
  path_join : string -> string -> string;
  path_parse_name : string -> string;
  JSON_parse : string -> Settled JSON;
  describe_streams : string -> string -> Settled string
}.

(** ** The host *)

Record ExecOutput : Type := { stdout : string; stderr : string }.

Record Metadata : Type := { activationValue : option string }.

(** The arguments node-notifier passes to the callback. *)
Record Callback : Type := {
  cb_err : option string;
  cb_response : option string;
  cb_metadata : option Metadata
}.

(** Every answer may depend on, and change, the state [W] of the machine.
    [notifier_notify] answers [None] when the callback is never called. *)
Record Host (W : Type) : Type := {
  env : string -> option string;
  os_tmpdir : string;
  fs_access : string -> W -> Settled unit * W;
  fs_access_W_OK : string -> W -> Settled unit * W;
  fs_mkdir : string -> W -> Settled unit * W;
  notifier_notify : string -> W -> option Callback * W;
  execAsync : string -> W -> Settled ExecOutput * W
}.

(** ** Events and the monad of handlers *)

Inductive Event : Type :=
| EvAccess (path : string) (ok : bool)
| EvAccessW (path : string) (ok : bool)
| EvMkdir (path : string) (ok : bool)
| EvAsk (action : string)
| EvNotify (message : string)
| EvAnswer (permitted : bool)
| EvExec (command : string).

Definition is_exec (e : Event) : bool :=
  match e with EvExec _ => true | _ => false end.

Definition is_notify (e : Event) : bool :=
  match e with EvNotify _ => true | _ => false end.

Definition is_ask (e : Event) : bool :=
  match e with EvAsk _ => true | _ => false end.

(** [askPermission] resolved [true]. *)
Definition is_granted (e : Event) : bool :=
  match e with EvAnswer true => true | _ => false end.

Definition exec_commands (t : list Event) : list string :=
  flat_map (fun e => match e with EvExec c => [c] | _ => [] end) t.

(** How a block of an async function ends: with a value, with a [return]
    of the enclosing function, with an exception, or never (an awaited
    promise that is never resolved). *)
Inductive Res (R A : Type) : Type :=
| Val (a : A)
| Return (r : R)
| Throw (message : string)
| Pending.
Arguments Val {R A} a.
Arguments Return {R A} r.
Arguments Throw {R A} message.
Arguments Pending {R A}.

Definition M (W R A : Type) : Type := W -> Res R A * W * list Event.

Section Monad.
Context {W R : Type}.

Definition ret {A} (a : A) : M W R A := fun w => (Val a, w, []).

Definition bind {A B} (m : M W R A) (k : A -> M W R B) : M W R B :=
  fun w =>
    match m w with
    | (Val a, w1, t1) => let '(r, w2, t2) := k a w1 in (r, w2, (t1 ++ t2)%list)
    | (Return r, w1, t1) => (Return r, w1, t1)
    | (Throw e, w1, t1) => (Throw e, w1, t1)
    | (Pending, w1, t1) => (Pending, w1, t1)
    end.

Definition return_ {A} (r : R) : M W R A := fun w => (Return r, w, []).

Definition emit (e : Event) : M W R unit := fun w => (Val tt, w, [e]).

(** [try { m } catch (error) { h error.message }] *)
Definition try_catch {A} (m : M W R A) (h : string -> M W R A) : M W R A :=
  fun w =>
    match m w with
    | (Throw e, w1, t1) => let '(r, w2, t2) := h e w1 in (r, w2, (t1 ++ t2)%list)
    | other => other
    end.

(** [await] of a host promise, recorded by [ev]. *)
Definition await {A} (call : W -> Settled A * W) (ev : bool -> Event)
  : M W R A :=
  fun w =>
    match call w with
    | (Fulfilled a, w1) => (Val a, w1, [ev true])
    | (Rejected e, w1) => (Throw e, w1, [ev false])
    end.
End Monad.

Notation "x <- m ;; k" := (bind m (fun x => k))
  (at level 61, m at next level, right associativity).
Notation "m ;;; k" := (bind m (fun _ => k))
  (at level 61, right associativity).

(** The entries of both [RESOLUTIONS] tables. *)
Record Size : Type := { width : nat; height : nat }.

(** ** The MCP server, [src/mcp-ffmpeg.ts] *)

Module Mcp.

Inductive Resolution : Type := R360p | R480p | R720p | R1080p.

Definition resolution_name (r : Resolution) : string :=
  match r with
  | R360p => "360p"
  | R480p => "480p"
  | R720p => "720p"
  | R1080p => "1080p"
  end.

Definition RESOLUTIONS (r : Resolution) : Size :=
  match r with
  | R360p => {| width := 640; height := 360 |}
  | R480p => {| width := 854; height := 480 |}
  | R720p => {| width := 1280; height := 720 |}
  | R1080p => {| width := 1920; height := 1080 |}
  end.

Inductive Format : Type := mp3 | aac | wav | ogg.

Definition format_name (f : Format) : string :=
  match f with
  | mp3 => "mp3"
  | aac => "aac"
  | wav => "wav"
  | ogg => "ogg"
  end.

(** The [switch] on the format. *)
Definition audioCodec (f : Format) : string :=
  match f with
  | mp3 => "libmp3lame"
  | aac => "aac"
  | wav => "pcm_s16le"
  | ogg => "libvorbis"
  end.

(** What a tool returns; an absent [isError] is [false]. *)
Record ToolResult : Type := { isError : bool; text : string }.

Definition error_result (s : string) : ToolResult :=
  {| isError := true; text := s |}.

Definition text_result (s : string) : ToolResult :=
  {| isError := false; text := s |}.

Record ResizeResult : Type := {
  resolution : Resolution;
  outputPath : string;
  success : bool;
  error : option string
}.

(** The registered tools, in registration order. *)
Inductive Tool : Type :=
| GetFfmpegVersion | ResizeVideo | ExtractAudio | GetVideoInfo.

Definition tools : list (string * Tool) :=
  [ ("get-ffmpeg-version", GetFfmpegVersion);
    ("resize-video", ResizeVideo);
    ("extract-audio", ExtractAudio);
    ("get-video-info", GetVideoInfo) ].

Section Handlers.
Context {W : Type} (H : Host W) {N : NodeLib}.

Local Abbreviation M' := (M W ToolResult).

Definition access (p : string) : M' unit :=
  await (fs_access H p) (EvAccess p).

Definition access_W_OK (p : string) : M' unit :=
  await (fs_access_W_OK H p) (EvAccessW p).

Definition mkdir (p : string) : M' unit :=
  await (fs_mkdir H p) (EvMkdir p).

Definition exec (command : string) : M' ExecOutput :=
  await (execAsync H command) (fun _ => EvExec command).

(** The notifier dialog; the promise is resolved in the callback only. *)
Definition notify (message : string) : M' Callback :=
  fun w =>
    match notifier_notify H message w with
    | (Some cb, w1) => (Val cb, w1, [EvNotify message])
    | (None, w1) => (Pending, w1, [EvNotify message])
    end.

Definition buttonPressed (cb : Callback) : option string :=
  js_or (match cb_metadata cb with
         | Some m => activationValue m
         | None => None
         end)
        (cb_response cb).

Definition is_Deny (o : option string) : bool :=
  match o with
  | Some s => String.eqb s "Deny"
  | None => false
  end.

Definition answer (b : bool) : M' bool := emit (EvAnswer b) ;;; ret b.

Definition askPermission (action : string) : M' bool :=
  emit (EvAsk action) ;;;
  match env H "DISABLE_NOTIFICATIONS" with
  | Some "true" => answer true
  | _ =>
      cb <- notify action ;;
      match cb_err cb with
      | Some _ => answer false
      | None => answer (negb (is_Deny (buttonPressed cb)))
      end
  end.

Definition ensureDirectoriesExist : M' string :=
  let outputDir := path_join (os_tmpdir H) "ffmpeg-output" in
  try_catch (mkdir outputDir ;;; ret outputDir)
            (fun _ => ret (os_tmpdir H)).

(** [outputDir ? path.resolve(outputDir) : await ensureDirectoriesExist()] *)
Definition outputDirectory_of (outputDir : option string) : M' string :=
  match outputDir with
  | Some d => if truthy outputDir then ret (path_resolve d)
              else ensureDirectoriesExist
  | None => ensureDirectoriesExist
  end.

Definition check_input (absVideoPath : string) : M' unit :=
  try_catch (access absVideoPath)
    (fun _ => return_ (error_result
       ("Error: Video file not found at " ++ absVideoPath))).

Definition check_output (outputDirectory : string) : M' unit :=
  try_catch (access_W_OK outputDirectory)
    (fun _ => return_ (error_result
       ("Error: Output directory " ++ outputDirectory
          ++ " does not exist or is not writable"))).

(** *** resize-video *)

Definition resize_outputFilename (absVideoPath : string) (r : Resolution)
  : string :=
  let videoFilename :=
    path_basename_ext absVideoPath (path_extname absVideoPath) in
  videoFilename ++ "_" ++ resolution_name r ++ path_extname absVideoPath.

Definition resize_command (absVideoPath outputPath : string)
  (r : Resolution) : string :=
  let s := RESOLUTIONS r in
  "ffmpeg -i " ++ dq ++ absVideoPath ++ dq
    ++ " -vf " ++ dq ++ "scale=" ++ show_nat (width s) ++ ":"
    ++ show_nat (height s) ++ dq
    ++ " -c:v libx264 -crf 23 -preset medium -c:a aac -b:a 128k "
    ++ dq ++ outputPath ++ dq.

(** The body of the [for ... of] loop: [results] grows by one entry. *)
Definition resize_one (absVideoPath outputDirectory : string)
  (results : list ResizeResult) (r : Resolution) : M' (list ResizeResult) :=
  let outputPath :=
    path_join outputDirectory (resize_outputFilename absVideoPath r) in
  let command := resize_command absVideoPath outputPath r in
  try_catch
    (exec command ;;;
     ret ((results ++ [{| resolution := r; outputPath := outputPath;
                         success := true; error := None |}])%list))
    (fun errorMessage =>
       ret ((results ++ [{| resolution := r; outputPath := outputPath;
                           success := false;
                           error := Some errorMessage |}])%list)).

Fixpoint resize_loop (absVideoPath outputDirectory : string)
  (resolutions : list Resolution) (results : list ResizeResult)
  : M' (list ResizeResult) :=
  match resolutions with
  | [] => ret results
  | r :: rest =>
      results' <- resize_one absVideoPath outputDirectory results r ;;
      resize_loop absVideoPath outputDirectory rest results'
  end.

Definition result_line (result : ResizeResult) : string :=
  if success result then
    "✅ " ++ resolution_name (resolution result) ++ ": "
      ++ outputPath result ++ nl
  else
    "❌ " ++ resolution_name (resolution result) ++ ": Failed - "
      ++ match error result with Some e => e | None => "undefined" end
      ++ nl.

Definition successCount (results : list ResizeResult) : nat :=
  length (filter success results).

Definition failCount (results : list ResizeResult) : nat :=
  length results - successCount results.

Definition result_header (results : list ResizeResult) : string :=
  "Processed " ++ show_nat (length results) ++ " resolutions ("
    ++ show_nat (successCount results) ++ " successful, "
    ++ show_nat (failCount results) ++ " failed)" ++ nl ++ nl.

Definition resultText (results : list ResizeResult) : string :=
  fold_left (fun acc result => acc ++ result_line result) results
            (result_header results).

Definition resize_video (videoPath : string)
  (resolutions : list Resolution) (outputDir : option string) : M' unit :=
  try_catch
    (let absVideoPath := path_resolve videoPath in
     check_input absVideoPath ;;;
     outputDirectory <- outputDirectory_of outputDir ;;
     check_output outputDirectory ;;;
     let resolutionsStr := join ", " (map resolution_name resolutions) in
     let permissionMessage :=
       "Resize video " ++ path_basename absVideoPath ++ " to "
         ++ resolutionsStr in
     permitted <- askPermission permissionMessage ;;
     if negb permitted then
       return_ (error_result "Permission denied by user")
     else
       results <- resize_loop absVideoPath outputDirectory resolutions [] ;;
       return_ (text_result (resultText results)))
    (fun errorMessage =>
       return_ (error_result ("Error resizing video: " ++ errorMessage))).

(** *** extract-audio *)

Definition extract_command (absVideoPath outputPath : string) (f : Format)
  : string :=
  "ffmpeg -i " ++ dq ++ absVideoPath ++ dq ++ " -vn -acodec "
    ++ audioCodec f ++ " " ++ dq ++ outputPath ++ dq.

Definition extract_audio (videoPath : string) (format : Format)
  (outputDir : option string) : M' unit :=
  try_catch
    (let absVideoPath := path_resolve videoPath in
     check_input absVideoPath ;;;
     outputDirectory <- outputDirectory_of outputDir ;;
     check_output outputDirectory ;;;
     let permissionMessage :=
       "Extract " ++ format_name format ++ " audio from video "
         ++ path_basename absVideoPath in
     permitted <- askPermission permissionMessage ;;
     if negb permitted then
       return_ (error_result "Permission denied by user")
     else
       let videoFilename :=
         path_basename_ext absVideoPath (path_extname absVideoPath) in
       let outputFilename := videoFilename ++ "." ++ format_name format in
       let outputPath := path_join outputDirectory outputFilename in
       let command := extract_command absVideoPath outputPath format in
       try_catch
         (exec command ;;;
          return_ (text_result
            ("Successfully extracted audio to: " ++ outputPath)))
         (fun errorMessage =>
            return_ (error_result
              ("Error extracting audio: " ++ errorMessage))))
    (fun errorMessage =>
       return_ (error_result ("Error extracting audio: " ++ errorMessage))).

(** *** get-video-info *)

Definition probe_command (absVideoPath : string) : string :=
  "ffprobe -v quiet -print_format json -show_format -show_streams "
    ++ dq ++ absVideoPath ++ dq.

Definition get_video_info (videoPath : string) : M' unit :=
  try_catch
    (let absVideoPath := path_resolve videoPath in
     check_input absVideoPath ;;;
     let permissionMessage :=
       "Analyze video file " ++ path_basename absVideoPath in
     permitted <- askPermission permissionMessage ;;
     if negb permitted then
       return_ (error_result "Permission denied by user")
     else
       out <- exec (probe_command absVideoPath) ;;
       match describe_streams (path_basename absVideoPath) (stdout out) with
       | Fulfilled formattedInfo => return_ (text_result formattedInfo)
       | Rejected e => fun w => (Throw e, w, [])
       end)
    (fun errorMessage =>
       return_ (error_result
         ("Error getting video information: " ++ errorMessage))).

End Handlers.

End Mcp.

(** ** The HTTP API, [controllers/ffmpegController.js] and [server.js] *)

Module Http.

Definition RESOLUTIONS : list (string * Size) :=
  [ ("360p", {| width := 640; height := 360 |});
    ("480p", {| width := 854; height := 480 |});
    ("720p", {| width := 1280; height := 720 |});
    ("1080p", {| width := 1920; height := 1080 |}) ].

(** [Object.keys(o)] and [o[k]] *)
Definition keys {A} (o : list (string * A)) : list string := map fst o.

Fixpoint lookup {A} (o : list (string * A)) (k : string) : option A :=
  match o with
  | [] => None
  | (k', v) :: rest => if String.eqb k k' then Some v else lookup rest k
  end.

Record File : Type := { file_path : string; file_filename : string }.

Record Request : Type := {
  file : option File;
  body_resolutions : option string;
  body_format : option string
}.

Record OutputFile : Type := {
  of_resolution : string;
  of_filename : string;
  of_path : string
}.

Record AudioFile : Type := {
  af_format : string;
  af_filename : string;
  af_path : string
}.

Inductive Body : Type :=
| ErrorBody (error : string)
| ErrorOptions (error : string) (validOptions : list string)
| FilesBody (message : string) (files : list OutputFile)
| FileBody (message : string) (file : AudioFile).

Record Response : Type := { status : nat; body : Body }.

(** [error.message || fallback] *)
Definition message_or (message fallback : string) : string :=
  if String.eqb message "" then fallback else message.

(** One [ffmpeg(videoPath).size(...).output(...)] run. *)
Record Job : Type := {
  job_resolution : string;
  job_input : string;
  job_size : option Size;
  job_outputFilename : string;
  job_outputPath : string
}.

Inductive Started (J : Type) : Type :=
| Responded (r : Response)
| Processing (work : J).
Arguments Responded {J} r.
Arguments Processing {J} work.

(** [Object.keys(RESOLUTIONS).includes(res)]: only a string can be equal to
    a key. *)
Definition is_valid (res : JSON) : bool :=
  match res with
  | JStr s => includes (keys RESOLUTIONS) s
  | _ => false
  end.

(** [`${resolution}`] of an element that passed the filter. *)
Definition template (res : JSON) : string :=
  match res with
  | JStr s => s
  | _ => ""
  end.

(** [resolutions.filter(...)]; only arrays have [filter]. *)
Definition js_filter (f : JSON -> bool) (v : JSON) : Settled (list JSON) :=
  match v with
  | JArr items => Fulfilled (filter f items)
  | JNull => Rejected "Cannot read properties of null (reading 'filter')"
  | _ => Rejected "resolutions.filter is not a function"
  end.

Definition validFormats : list string := ["mp3"; "aac"; "wav"; "ogg"].

(** The conditional passed to [.audioCodec(...)]. *)
Definition audioCodec (format : string) : string :=
  if String.eqb format "mp3" then "libmp3lame"
  else if String.eqb format "aac" then "aac"
  else format.

Record AudioJob : Type := {
  aj_input : string;
  aj_codec : string;
  aj_format : string;
  aj_outputFilename : string;
  aj_outputPath : string
}.

Section Controller.
Context {N : NodeLib}.

(** [path.join(__dirname, '..', 'output')] *)
Variable outputDir : string.

Definition resize_outputFilename (filename resolution : string) : string :=
  filename ++ "_" ++ resolution ++ ".mp4".

Definition make_job (videoPath filename : string) (res : JSON) : Job :=
  let resolution := template res in
  let outputFilename := resize_outputFilename filename resolution in
  {| job_resolution := resolution;
     job_input := videoPath;
     job_size := lookup RESOLUTIONS resolution;
     job_outputFilename := outputFilename;
     job_outputPath := path_join outputDir outputFilename |}.

(** The value of [resolutions]. *)
Definition requested (req : Request) : Settled JSON :=
  match body_resolutions req with
  | Some s => if truthy (body_resolutions req) then JSON_parse s
              else Fulfilled (JArr (map JStr (keys RESOLUTIONS)))
  | None => Fulfilled (JArr (map JStr (keys RESOLUTIONS)))
  end.

Definition server_error (message fallback : string) : Response :=
  {| status := 500; body := ErrorBody (message_or message fallback) |}.

(** [resizeVideo] up to [Promise.all]: either a response was sent, or the
    jobs of [processingPromises] have all been started. *)
Definition resizeVideo (req : Request) : Started (list Job) :=
  match file req with
  | None =>
      Responded {| status := 400; body := ErrorBody "No video file uploaded" |}
  | Some f =>
      let videoPath := file_path f in
      let filename := path_parse_name (file_filename f) in
      match requested req with
      | Rejected e => Responded (server_error e "Error processing video")
      | Fulfilled resolutions =>
          match js_filter is_valid resolutions with
          | Rejected e => Responded (server_error e "Error processing video")
          | Fulfilled validResolutions =>
              if Nat.eqb (length validResolutions) 0 then
                Responded
                  {| status := 400;
                     body := ErrorOptions "No valid resolutions specified"
                                          (keys RESOLUTIONS) |}
              else
                Processing (map (make_job videoPath filename) validResolutions)
          end
      end
  end.

(** [extractAudio] up to the start of the one ffmpeg run. *)
Definition extractAudio (req : Request) : Started AudioJob :=
  match file req with
  | None =>
      Responded {| status := 400; body := ErrorBody "No video file uploaded" |}
  | Some f =>
      let videoPath := file_path f in
      let filename := path_parse_name (file_filename f) in
      let format :=
        match js_or (body_format req) (Some "mp3") with
        | Some s => s
        | None => "mp3"
        end in
      if negb (includes validFormats format) then
        Responded {| status := 400;
                     body := ErrorOptions "Invalid audio format" validFormats |}
      else
        let outputFilename := filename ++ "." ++ format in
        Processing {| aj_input := videoPath;
                      aj_codec := audioCodec format;
                      aj_format := format;
                      aj_outputFilename := outputFilename;
                      aj_outputPath := path_join outputDir outputFilename |}
  end.

End Controller.

(** *** The jobs of one resize request

    Every job was started before [Promise.all] is awaited; afterwards the
    only things that happen are the ['end'] and ['error'] callbacks of the
    jobs, in an order the handler does not control.  The continuation of
    the [await] runs right after the callback that settles [Promise.all],
    so it is part of that step: [response] is [None] exactly while
    [Promise.all] is pending. *)

Inductive JobState : Type := Running | Ended | Failed.

Record Proc : Type := {
  jobs : list (Job * JobState);
  outputFiles : list OutputFile;
  response : option Response
}.

Definition start (js : list Job) : Proc :=
  {| jobs := map (fun j => (j, Running)) js;
     outputFiles := [];
     response := None |}.

Inductive Completion : Type :=
| OnEnd (i : nat)
| OnError (i : nat) (message : string).

Fixpoint set_state (i : nat) (st : JobState) (js : list (Job * JobState))
  : list (Job * JobState) :=
  match js, i with
  | [], _ => []
  | (j, _) :: rest, 0 => (j, st) :: rest
  | x :: rest, S i' => x :: set_state i' st rest
  end.

Definition is_ended (x : Job * JobState) : bool :=
  match snd x with Ended => true | _ => false end.

Definition output_file (j : Job) : OutputFile :=
  {| of_resolution := job_resolution j;
     of_filename := job_outputFilename j;
     of_path := "/output/" ++ job_outputFilename j |}.

(** One callback of job [i]; [None] when that job is not running. *)
Definition deliver (c : Completion) (p : Proc) : option Proc :=
  match c with
  | OnEnd i =>
      match nth_error (jobs p) i with
      | Some (j, Running) =>
          let jobs' := set_state i Ended (jobs p) in
          let outputFiles' := (outputFiles p ++ [output_file j])%list in
          Some {| jobs := jobs';
                  outputFiles := outputFiles';
                  response :=
                    match response p with
                    | Some r => Some r
                    | None =>
                        if forallb is_ended jobs' then
                          Some {| status := 200;
                                  body := FilesBody "Video processing completed"
                                                    outputFiles' |}
                        else None
                    end |}
      | _ => None
      end
  | OnError i message =>
      match nth_error (jobs p) i with
      | Some (j, Running) =>
          Some {| jobs := set_state i Failed (jobs p);
                  outputFiles := outputFiles p;
                  response :=
                    match response p with
                    | Some r => Some r
                    | None =>
                        Some (server_error message "Error processing video")
                    end |}
      | _ => None
      end
  end.

Fixpoint run (schedule : list Completion) (p : Proc) : option Proc :=
  match schedule with
  | [] => Some p
  | c :: rest =>
      match deliver c p with
      | Some p' => run rest p'
      | None => None
      end
  end.

(** *** The routes of [server.js] *)

Inductive Controller : Type := resizeVideo_route | extractAudio_route.

Definition routes : list (string * string * Controller) :=
  [ ("POST", "/api/resize", resizeVideo_route);
    ("POST", "/api/extract-audio", extractAudio_route) ].

End Http.

(** ** A concrete Node and a concrete machine

    Used to run the handlers on examples.  [Posix] follows Node's POSIX
    [path] on paths that are already normalised (no [.] or [..] segments,
    no doubled separators); its [JSON_parse] reads arrays of strings
    written without blanks or escapes and rejects everything else, and its
    [describe_streams] is the formatting of a probe output that has
    neither [format] nor [streams]. *)

Module Posix.

Fixpoint all_slashes (s : string) : bool :=
  match s with
  | EmptyString => true
  | String c r => Ascii.eqb c "/" && all_slashes r
  end.

Fixpoint basename_from (s acc : string) : string :=
  match s with
  | EmptyString => acc
  | String c r =>
      if Ascii.eqb c "/" then
        if all_slashes r then acc else basename_from r EmptyString
      else basename_from r (acc ++ String c EmptyString)
  end.

Definition basename (p : string) : string := basename_from p EmptyString.

(** The suffix that starts at the last dot. *)
Fixpoint last_dot (s : string) : option string :=
  match s with
  | EmptyString => None
  | String c r =>
      match last_dot r with
      | Some e => Some e
      | None => if Ascii.eqb c "." then Some s else None
      end
  end.

Definition extname (p : string) : string :=
  match basename p with
  | EmptyString => ""
  | String c r =>
      if String.eqb (String c r) ".." then ""
      else match last_dot r with Some e => e | None => "" end
  end.

Definition basename_ext (p ext : string) : string :=
  let b := basename p in
  let n := String.length b - String.length ext in
  if Nat.ltb (String.length ext) (String.length b)
     && String.eqb (substring n (String.length ext) b) ext
  then substring 0 n b
  else b.

Definition ends_with_slash (s : string) : bool :=
  match String.length s with
  | 0 => false
  | S n => String.eqb (substring n 1 s) "/"
  end.

Definition join2 (a b : string) : string :=
  if String.eqb a "" then b
  else if ends_with_slash a then a ++ b
  else a ++ "/" ++ b.

Definition resolve (cwd p : string) : string :=
  match p with
  | String "/" _ => p
  | EmptyString => cwd
  | _ => join2 cwd p
  end.

Inductive PState : Type :=
| PStart | POpen | PIn (cur : string) | PAfter | PComma | PDone.

Fixpoint parse_go (s : string) (st : PState) (acc : list JSON)
  : option (list JSON) :=
  match s with
  | EmptyString => match st with PDone => Some acc | _ => None end
  | String c r =>
      match st with
      | PStart => if Ascii.eqb c "[" then parse_go r POpen acc else None
      | POpen =>
          if Ascii.eqb c "]" then parse_go r PDone acc
          else if Ascii.eqb c (ascii_of_nat 34)
               then parse_go r (PIn EmptyString) acc
               else None
      | PIn cur =>
          if Ascii.eqb c (ascii_of_nat 34)
          then parse_go r PAfter (acc ++ [JStr cur])%list
          else parse_go r (PIn (cur ++ String c EmptyString)) acc
      | PAfter =>
          if Ascii.eqb c "," then parse_go r PComma acc
          else if Ascii.eqb c "]" then parse_go r PDone acc
          else None
      | PComma =>
          if Ascii.eqb c (ascii_of_nat 34)
          then parse_go r (PIn EmptyString) acc
          else None
      | PDone => None
      end
  end.

Definition parse (s : string) : Settled JSON :=
  match parse_go s PStart [] with
  | Some items => Fulfilled (JArr items)
  | None => Rejected "Unexpected token in JSON"
  end.

Definition node (cwd : string) : NodeLib :=
  {| path_resolve := resolve cwd;
     path_basename := basename;
     path_basename_ext := basename_ext;
     path_extname := extname;
     path_join := join2;
     path_parse_name := fun p => basename_ext p (extname p);
     JSON_parse := parse;
     describe_streams := fun name _ =>
       Fulfilled ("Video Information for: " ++ name ++ nl ++ nl) |}.

End Posix.

(** A machine whose state is the list of writable directories: [mkdir]
    adds one when [m_mkdir] allows it. *)
Record Machine : Type := {
  m_env : option string;
  m_files : list string;
  m_mkdir : bool;
  m_callback : option Callback;
  m_broken : list string
}.

Definition settle (ok : bool) (message : string) : Settled unit :=
  if ok then Fulfilled tt else Rejected message.

Definition machine (m : Machine) : Host (list string) :=
  {| env := fun name =>
       if String.eqb name "DISABLE_NOTIFICATIONS" then m_env m else None;
     os_tmpdir := "/tmp";
     fs_access := fun p w =>
       (settle (includes (m_files m) p || includes w p) "ENOENT", w);
     fs_access_W_OK := fun p w => (settle (includes w p) "EACCES", w);
     fs_mkdir := fun p w =>
       if m_mkdir m then (Fulfilled tt, p :: w) else (Rejected "EACCES", w);
     notifier_notify := fun _ w => (m_callback m, w);
     execAsync := fun command w =>
       if includes (m_broken m) command
       then (Rejected ("Command failed: " ++ command ++ nl), w)
       else (Fulfilled {| stdout := "{}"; stderr := "" |}, w) |}.

Definition allow : Callback :=
  {| cb_err := None;
     cb_response := Some "activate";
     cb_metadata := Some {| activationValue := Some "Allow" |} |}.

Definition deny : Callback :=
  {| cb_err := None;
     cb_response := Some "activate";
     cb_metadata := Some {| activationValue := Some "Deny" |} |}.

Definition quiet : Machine :=
  {| m_env := Some "true"; m_files := ["/videos/clip.avi"]; m_mkdir := true;
     m_callback := None; m_broken := [] |}.

Definition asking (cb : option Callback) : Machine :=
  {| m_env := None; m_files := ["/videos/clip.avi"]; m_mkdir := true;
     m_callback := cb; m_broken := [] |}.

(** A machine without the input file. *)
Definition no_clip : Machine :=
  {| m_env := None; m_files := []; m_mkdir := true;
     m_callback := Some allow; m_broken := [] |}.

(** The callback of a notifier that could not show the dialog. *)
Definition notifier_error : Callback :=
  {| cb_err := Some "notifier failed"; cb_response := None;
     cb_metadata := None |}.

(** A machine on which the 360p run of [ffmpeg] fails. *)
Definition half_broken : Machine :=
  {| m_env := Some "true"; m_files := ["/videos/clip.avi"]; m_mkdir := true;
     m_callback := None;
     m_broken := [Mcp.resize_command "/videos/clip.avi"
                    "/tmp/ffmpeg-output/clip_360p.avi" Mcp.R360p] |}.

(** A machine on which [mkdir] fails. *)
Definition no_mkdir : Machine :=
  {| m_env := Some "true"; m_files := ["/videos/clip.avi"]; m_mkdir := false;
     m_callback := None; m_broken := [] |}.

(** An upload as multer stores it. *)
Definition upload (resolutions : option string) : Http.Request :=
  {| Http.file := Some {| Http.file_path := "/srv/uploads/17-42.avi";
                          Http.file_filename := "17-42.avi" |};
     Http.body_resolutions := resolutions;
     Http.body_format := None |}.

(** The field [["360p","4k"]]. *)
Definition two_names : string :=
  "[" ++ dq ++ "360p" ++ dq ++ "," ++ dq ++ "4k" ++ dq ++ "]".

Definition result_of {W R A} (x : Res R A * W * list Event) : Res R A :=
  fst (fst x).

Definition trace_of {W R A} (x : Res R A * W * list Event) : list Event :=
  snd x.

(** One call of a permission-gated tool. *)
Inductive Call : Type :=
| CallResize (videoPath : string) (resolutions : list Mcp.Resolution)
    (outputDir : option string)
| CallExtract (videoPath : string) (format : Mcp.Format)
    (outputDir : option string)
| CallInfo (videoPath : string).

Definition handle {W} (H : Host W) {N : NodeLib} (c : Call)
  : M W Mcp.ToolResult unit :=
  match c with
  | CallResize v rs o => Mcp.resize_video H v rs o
  | CallExtract v f o => Mcp.extract_audio H v f o
  | CallInfo v => Mcp.get_video_info H v
  end.

Definition denied : Mcp.ToolResult :=
  Mcp.error_result "Permission denied by user".

Import Mcp.

(** ** Vocabulary of the properties *)

(** File-system events that let the handler go on. *)
Definition passing (e : Event) : bool :=
  match e with
  | EvAccess _ true | EvAccessW _ true | EvMkdir _ _ => true
  | _ => false
  end.

(** A failed input check. *)
Definition failed_check (e : Event) : bool :=
  match e with
  | EvAccess _ false | EvAccessW _ false => true
  | _ => false
  end.

(** The shapes a run of a gated tool can have: an input check failed;
    the dialog is never answered; permission was denied; permission was
    granted and commands were run. *)
Inductive Run : Res ToolResult unit -> list Event -> Prop :=
| RunRejected pre e r :
    forallb passing pre = true -> failed_check e = true ->
    Run (Return r) (pre ++ [e])
| RunPending pre action :
    forallb passing pre = true ->
    Run Pending (pre ++ [EvAsk action; EvNotify action])
| RunDenied pre action :
    forallb passing pre = true ->
    Run (Return denied)
        (pre ++ [EvAsk action; EvNotify action; EvAnswer false])
| RunGranted pre action shown commands r :
    forallb passing pre = true ->
    shown = [] \/ shown = [EvNotify action] ->
    Run (Return r)
        (pre ++ EvAsk action :: shown ++ EvAnswer true
             :: map EvExec commands).

Definition not_found (absVideoPath : string) : ToolResult :=
  error_result ("Error: Video file not found at " ++ absVideoPath).

Definition not_writable (outputDirectory : string) : ToolResult :=
  error_result ("Error: Output directory " ++ outputDirectory
                  ++ " does not exist or is not writable").

Section Names.
Context {N : NodeLib}.

Definition resize_outputPath (absVideoPath outputDirectory : string)
  (r : Resolution) : string :=
  path_join outputDirectory (resize_outputFilename absVideoPath r).

(** The entry the loop pushes for resolution [r]. *)
Definition entry_for (absVideoPath outputDirectory : string)
  (r : Resolution) (x : ResizeResult) : Prop :=
  resolution x = r
  /\ outputPath x = resize_outputPath absVideoPath outputDirectory r
  /\ ((success x = true /\ error x = None)
      \/ (success x = false /\ exists e, error x = Some e)).

Definition resize_message (absVideoPath : string)
  (resolutions : list Resolution) : string :=
  "Resize video " ++ path_basename absVideoPath ++ " to "
    ++ join ", " (map resolution_name resolutions).

Definition resize_commands (absVideoPath outputDirectory : string)
  (resolutions : list Resolution) : list string :=
  map (fun r => resize_command absVideoPath
                  (resize_outputPath absVideoPath outputDirectory r) r)
      resolutions.

Definition extract_message (absVideoPath : string) (f : Format) : string :=
  "Extract " ++ format_name f ++ " audio from video "
    ++ path_basename absVideoPath.

Definition extract_outputPath (absVideoPath outputDirectory : string)
  (f : Format) : string :=
  path_join outputDirectory
    (path_basename_ext absVideoPath (path_extname absVideoPath)
       ++ "." ++ format_name f).

Definition info_message (absVideoPath : string) : string :=
  "Analyze video file " ++ path_basename absVideoPath.

End Names.

(** The [-vf] argument for each resolution, as the table of the
    specification gives it. *)
Definition spec_scale (r : Resolution) : string :=
  match r with
  | R360p => "scale=640:360"
  | R480p => "scale=854:480"
  | R720p => "scale=1280:720"
  | R1080p => "scale=1920:1080"
  end.

Definition spec_resize_command (input output : string) (r : Resolution)
  : string :=
  "ffmpeg -i " ++ dq ++ input ++ dq ++ " -vf " ++ dq ++ spec_scale r ++ dq
    ++ " -c:v libx264 -crf 23 -preset medium -c:a aac -b:a 128k "
    ++ dq ++ output ++ dq.

(** The three operations of the specification. *)
Inductive Operation : Type := ResizeOp | ExtractAudioOp | MetadataOp.

Definition operation_eqb (a b : Operation) : bool :=
  match a, b with
  | ResizeOp, ResizeOp | ExtractAudioOp, ExtractAudioOp
  | MetadataOp, MetadataOp => true
  | _, _ => false
  end.

(** What each registered handler does; get-ffmpeg-version reports the
    version of the binary, which is none of the three operations. *)
Definition tool_operation (t : Tool) : option Operation :=
  match t with
  | GetFfmpegVersion => None
  | ResizeVideo => Some ResizeOp
  | ExtractAudio => Some ExtractAudioOp
  | GetVideoInfo => Some MetadataOp
  end.

Definition route_operation (c : Http.Controller) : Operation :=
  match c with
  | Http.resizeVideo_route => ResizeOp
  | Http.extractAudio_route => ExtractAudioOp
  end.

Definition mcp_exposes (op : Operation) : bool :=
  existsb (fun nt => match tool_operation (snd nt) with
                     | Some op' => operation_eqb op op'
                     | None => false
                     end) tools.

Definition http_exposes (op : Operation) : bool :=
  existsb (fun r => operation_eqb op (route_operation (snd r))) Http.routes.

(** The strings among the elements of a parsed array. *)
Definition names_of (items : list JSON) : list string :=
  flat_map (fun j => match j with JStr s => [s] | _ => [] end) items.

(** The resolution names of the specification. *)
Definition spec_resolutions : list string := ["360p"; "480p"; "720p"; "1080p"].

(** A job that reported an error. *)
Definition is_failed (x : Http.Job * Http.JobState) : bool :=
  match snd x with Http.Failed => true | _ => false end.

(** What holds of the jobs [js] of one request after any number of
    callbacks. *)
Record Inv (js : list Http.Job) (p : Http.Proc) : Prop := {
  inv_jobs : map fst (Http.jobs p) = js;
  inv_files :
    length (Http.outputFiles p)
    = length (filter Http.is_ended (Http.jobs p));
  inv_pending :
    Http.response p = None ->
    existsb is_failed (Http.jobs p) = false
    /\ (js <> [] -> forallb Http.is_ended (Http.jobs p) = false);
  inv_ok :
    forall r, Http.response p = Some r -> Http.status r = 200 ->
      forallb Http.is_ended (Http.jobs p) = true
      /\ Http.body r
         = Http.FilesBody "Video processing completed" (Http.outputFiles p);
  inv_error :
    forall r, Http.response p = Some r -> Http.status r <> 200 ->
      existsb is_failed (Http.jobs p) = true
}.

(** ** The rest of the code *)

(** *** Regular expressions of the form [/literal(group+)/]

    [str.match(re)] for a regular expression made of a literal followed by
    one capturing group [(class+)]: the leftmost place where the literal is
    followed by at least one character of the class, and there the longest
    run of such characters, which [group] reads off the text after the
    literal.  Strings are the UTF-8 bytes of the JavaScript string: an
    ASCII literal and [\d] match at the same places on both, and [\S] is
    read with the UTF-8 encodings of the white space of [\s]. *)

Fixpoint strip_prefix (p s : string) : option string :=
  match p, s with
  | EmptyString, _ => Some s
  | String a p', String b s' =>
      if Ascii.eqb a b then strip_prefix p' s' else None
  | String _ _, EmptyString => None
  end.

Fixpoint take_while (f : ascii -> bool) (s : string) : string :=
  match s with
  | EmptyString => EmptyString
  | String c r => if f c then String c (take_while f r) else EmptyString
  end.

Definition capture_here (literal : string) (group : string -> string)
  (s : string) : option string :=
  match strip_prefix literal s with
  | Some rest =>
      match group rest with
      | EmptyString => None
      | found => Some found
      end
  | None => None
  end.

Fixpoint regex_capture (literal : string) (group : string -> string)
  (s : string) : option string :=
  match capture_here literal group s with
  | Some found => Some found
  | None =>
      match s with
      | EmptyString => None
      | String _ r => regex_capture literal group r
      end
  end.


Definition bytes (codes : list nat) : string :=
  string_of_list_ascii (map ascii_of_nat codes).

(** The white space of [\s], each character in UTF-8: tab, line feed,
    vertical tab, form feed, carriage return, space, U+00A0, U+1680,
    U+2000 to U+200A, U+2028, U+2029, U+202F, U+205F, U+3000, U+FEFF. *)
Definition white_space : list string :=
  map bytes
    [ [9]; [10]; [11]; [12]; [13]; [32];
      [194; 160];
      [225; 154; 128];
      [226; 128; 128]; [226; 128; 129]; [226; 128; 130]; [226; 128; 131];
      [226; 128; 132]; [226; 128; 133]; [226; 128; 134]; [226; 128; 135];
      [226; 128; 136]; [226; 128; 137]; [226; 128; 138];
      [226; 128; 168]; [226; 128; 169];
      [226; 128; 175];
      [226; 129; 159];
      [227; 128; 128];
      [239; 187; 191] ].

Definition starts_with_space (s : string) : bool :=
  existsb (fun blank => match strip_prefix blank s with
                        | Some _ => true
                        | None => false
                        end) white_space.

(** [\S+]: up to the next white space. *)
Fixpoint take_word (s : string) : string :=
  match s with
  | EmptyString => EmptyString
  | String c r =>
      if starts_with_space s then EmptyString else String c (take_word r)
  end.



(** [\d] *)
Definition is_digit (c : ascii) : bool :=
  let n := nat_of_ascii c in Nat.leb 48 n && Nat.leb n 57.

(** [parseInt(s)] on a string of decimal digits (exact below [2^53]). *)
Definition parseInt (s : string) : nat :=
  match NilEmpty.uint_of_string s with
  | Some d => Nat.of_uint d
  | None => 0
  end.

(** *** The tool get-ffmpeg-version *)

Definition version_of (stdout : string) : string :=
  match regex_capture "ffmpeg version " take_word stdout with
  | Some version => version
  | None => "Unknown"
  end.

Definition get_ffmpeg_version {W : Type} (H : Host W)
  : M W ToolResult unit :=
  try_catch
    (out <- exec H "ffmpeg -version" ;;
     return_ (text_result
       ("FFmpeg Version: " ++ version_of (stdout out) ++ nl ++ nl
          ++ "Full version info:" ++ nl ++ stdout out)))
    (fun errorMessage =>
       return_ (error_result
         ("Error getting FFmpeg version: " ++ errorMessage ++ nl ++ nl
            ++ "Make sure FFmpeg is installed and in your PATH."))).

(** *** [server.js]: looking for a free port *)

Module Server.

(** What [server.listen(port)] leads to: the ['listening'] event, the
    ['error'] event with a code, or an exception thrown by [listen]. *)
Inductive ListenOutcome : Type :=
| Listening
| ListenError (code : string)
| ListenThrows (message : string).

Inductive Probe : Type :=
| Probed (port : nat) (available : bool)
| Threw (port : nat).

Section Ports.
Context {W : Type} (listen : nat -> W -> ListenOutcome * W).

Definition isPortAvailable (port : nat) (w : W) : Settled bool * W :=
  match listen port w with
  | (Listening, w1) => (Fulfilled true, w1)
  | (ListenError code, w1) =>
      (Fulfilled (negb (String.eqb code "EADDRINUSE")), w1)
  | (ListenThrows message, w1) => (Rejected message, w1)
  end.

(** The [while] loop with [maxAttempts - attempts] turns to go; [None] when
    the loop ends without a [return]. *)
Fixpoint probe_ports (turns port : nat) (w : W)
  : Settled (option nat) * W * list Probe :=
  match turns with
  | 0 => (Fulfilled None, w, [])
  | S turns' =>
      match isPortAvailable port w with
      | (Fulfilled true, w1) => (Fulfilled (Some port), w1, [Probed port true])
      | (Fulfilled false, w1) =>
          let '(r, w2, t) := probe_ports turns' (S port) w1 in
          (r, w2, Probed port false :: t)
      | (Rejected e, w1) => (Rejected e, w1, [Threw port])
      end
  end.

Definition findAvailablePort (startPort maxAttempts : nat) (w : W)
  : Settled nat * W * list Probe :=
  match probe_ports maxAttempts startPort w with
  | (Fulfilled (Some port), w1, t) => (Fulfilled port, w1, t)
  | (Fulfilled None, w1, t) =>
      (Rejected ("Could not find an available port after "
                   ++ show_nat maxAttempts ++ " attempts"), w1, t)
  | (Rejected e, w1, t) => (Rejected e, w1, t)
  end.

End Ports.

(** [JSON.stringify({status: "running", port: port, url: url})] *)
Definition status_json (port : nat) (url : string) : string :=
  "{" ++ dq ++ "status" ++ dq ++ ":" ++ dq ++ "running" ++ dq ++ ","
    ++ dq ++ "port" ++ dq ++ ":" ++ show_nat port ++ ","
    ++ dq ++ "url" ++ dq ++ ":" ++ dq ++ url ++ dq ++ "}".

(** What the callback of [app.listen] writes to stdout for a port that is
    a number (or the decimal string of one). *)
Definition announce_stdout (port : nat) : string :=
  "Server running on port " ++ show_nat port ++ nl
    ++ "Visit http://localhost:" ++ show_nat port
    ++ " to access the application" ++ nl.

(** The wrapper script: what the ['data'] handler of the child's stdout
    prints for one chunk, if anything. *)
Definition on_stdout_data (data : string) : option string :=
  match regex_capture "Server running on port " (take_while is_digit) data with
  | Some digits =>
      if truthy (Some digits) then
        Some (status_json (parseInt digits) ("http://localhost:" ++ digits)
                ++ nl)
      else None
  | None => None
  end.

End Server.

(** *** More vocabulary *)

(** The events a run may hold when [outputDir] is [d]: no [mkdir], and no
    check of another directory. *)
Definition keeps_to (d : string) (e : Event) : bool :=
  match e with
  | EvMkdir _ _ => false
  | EvAccessW p _ => String.eqb p d
  | _ => true
  end.

(** The events of a run of get-video-info on the resolved path [a]. *)
Definition probes_only (a : string) (e : Event) : bool :=
  match e with
  | EvMkdir _ _ | EvAccessW _ _ => false
  | EvAccess p _ => String.eqb p a
  | EvExec c => String.eqb c (probe_command a)
  | _ => true
  end.

(** The indices of the jobs whose ['end'] callback a schedule delivers,
    and the first error it delivers. *)
Definition ended_in (schedule : list Http.Completion) : list nat :=
  flat_map (fun c => match c with
                     | Http.OnEnd i => [i]
                     | Http.OnError _ _ => []
                     end) schedule.

Fixpoint first_error (schedule : list Http.Completion) : option string :=
  match schedule with
  | [] => None
  | Http.OnError _ message :: _ => Some message
  | Http.OnEnd _ :: rest => first_error rest
  end.

Definition files_of (js : list Http.Job) (indices : list nat)
  : list Http.OutputFile :=
  flat_map (fun i => match nth_error js i with
                     | Some j => [Http.output_file j]
                     | None => []
                     end) indices.

(** The gate resolves [true] in the world [w] and leaves the world [w']:
    the dialogs are switched off, or the notifier calls back without an
    error and with a button other than [Deny]. *)
Definition gate_grants {W : Type} (H : Host W) (message : string)
  (w w' : W) : Prop :=
  (env H "DISABLE_NOTIFICATIONS" = Some "true" /\ w' = w)
  \/ (env H "DISABLE_NOTIFICATIONS" <> Some "true"
      /\ exists cb,
           notifier_notify H message w = (Some cb, w')
           /\ cb_err cb = None /\ buttonPressed cb <> Some "Deny").

(** What the host answers to commands run one after the other, each in the
    world the one before left, and the world after the last. *)
Fixpoint exec_outcomes {W : Type} (H : Host W) (commands : list string)
  (w : W) : list (Settled ExecOutput) :=
  match commands with
  | [] => []
  | c :: cs => fst (execAsync H c w)
               :: exec_outcomes H cs (snd (execAsync H c w))
  end.

Definition exec_world {W : Type} (H : Host W) (commands : list string)
  (w : W) : W :=
  fold_left (fun w0 c => snd (execAsync H c w0)) commands w.

Definition fulfilled {A : Type} (o : Settled A) : bool :=
  match o with Fulfilled _ => true | Rejected _ => false end.


(** The entry the loop of resize-video pushes for a resolution and the
    outcome of its command. *)
Definition pushed {N : NodeLib} (a d : string)
  (ro : Resolution * Settled ExecOutput) : ResizeResult :=
  {| resolution := fst ro;
     outputPath := resize_outputPath a d (fst ro);
     success := fulfilled (snd ro);
     error := match snd ro with
              | Fulfilled _ => None
              | Rejected e => Some e
              end |}.



(** A machine on which [ffmpeg] fails the way [child_process.exec] reports
    it: [Command failed: <command>], a line feed, and what the command
    wrote to stderr. *)
Definition rejecting_input : Host unit :=
  {| env := fun _ => Some "true";
     os_tmpdir := "/tmp";
     fs_access := fun _ w => (Fulfilled tt, w);
     fs_access_W_OK := fun _ w => (Fulfilled tt, w);
     fs_mkdir := fun _ w => (Fulfilled tt, w);
     notifier_notify := fun _ w => (None, w);
     execAsync := fun command w =>
       (Rejected ("Command failed: " ++ command ++ nl
                    ++ "/videos/clip.avi: Invalid data found when processing input"
                    ++ nl), w) |}.


(** The callback of a dialog nobody answered in time. *)
Definition timed_out : Callback :=
  {| cb_err := None; cb_response := Some "timeout"; cb_metadata := None |}.

(** A Node whose [JSON.parse] also reads [null]. *)
Definition node_with_null : NodeLib :=
  {| path_resolve := Posix.resolve "/srv";
     path_basename := Posix.basename;
     path_basename_ext := Posix.basename_ext;
     path_extname := Posix.extname;
     path_join := Posix.join2;
     path_parse_name := fun p => Posix.basename_ext p (Posix.extname p);
     JSON_parse := fun s => if String.eqb s "null" then Fulfilled JNull
                            else Posix.parse s;
     describe_streams := fun _ _ => Rejected "Unexpected end of JSON input" |}.

(** A machine on which every command succeeds and prints [out]. *)
Definition printing (out : string) : Host unit :=
  {| env := fun _ => Some "true";
     os_tmpdir := "/tmp";
     fs_access := fun _ w => (Fulfilled tt, w);
     fs_access_W_OK := fun _ w => (Fulfilled tt, w);
     fs_mkdir := fun _ w => (Fulfilled tt, w);
     notifier_notify := fun _ w => (None, w);
     execAsync := fun _ w => (Fulfilled {| stdout := out; stderr := "" |}, w) |}.

(** A network on which the ports in [busy] are in use and the ports in
    [forbidden] may not be bound. *)
Definition network (busy forbidden : list nat) (port : nat) (w : unit)
  : Server.ListenOutcome * unit :=
  if existsb (Nat.eqb port) busy then (Server.ListenError "EADDRINUSE", w)
  else if existsb (Nat.eqb port) forbidden then (Server.ListenError "EACCES", w)
  else (Server.Listening, w).

(** * Properties *)

Section GateFacts.
Context {W : Type} (H : Host W) {N : NodeLib}.

Lemma askPermission_disabled (action : string) (w : W) :
  env H "DISABLE_NOTIFICATIONS" = Some "true" ->
  askPermission H action w = (Val true, w, [EvAsk action; EvAnswer true]).
Proof.
  intros E. unfold askPermission, bind, emit, answer. rewrite E. reflexivity.
Qed.

Lemma askPermission_enabled (action : string) (w : W) :
  env H "DISABLE_NOTIFICATIONS" <> Some "true" ->
  askPermission H action w =
  match notifier_notify H action w with
  | (None, w1) => (Pending, w1, [EvAsk action; EvNotify action])
  | (Some cb, w1) =>
      let b := match cb_err cb with
               | Some _ => false
               | None => negb (is_Deny (buttonPressed cb))
               end in
      (Val b, w1, [EvAsk action; EvNotify action; EvAnswer b])
  end.
Proof.
  intros E.
  assert (R : askPermission H action =
              (emit (EvAsk action) ;;;
               cb <- notify H action ;;
               match cb_err cb with
               | Some _ => answer false
               | None => answer (negb (is_Deny (buttonPressed cb)))
               end)).
  { unfold askPermission.
    destruct (env H "DISABLE_NOTIFICATIONS") as [s|]; [|reflexivity].
    destruct (String.eqb_spec s "true") as [->|D]; [congruence|].
    repeat (match goal with
            | |- context [match ?x with _ => _ end] =>
                is_var x; destruct x; try reflexivity
            end); try congruence.
    all: repeat (match goal with
            | b : bool |- _ => destruct b
            end); try reflexivity; exfalso; apply D; reflexivity. }
  rewrite R. unfold bind, emit, notify, answer.
  destruct (notifier_notify H action w) as [[cb|] w1]; [|reflexivity].
  destruct (cb_err cb); reflexivity.
Qed.

End GateFacts.

(** ** The shape of every run of a gated tool *)

Section RunFacts.
Context {W : Type} (H : Host W) {N : NodeLib}.

Lemma askPermission_cases (action : string) (w : W) :
  askPermission H action w = (Val true, w, [EvAsk action; EvAnswer true])
  \/ (exists w1, askPermission H action w
                 = (Pending, w1, [EvAsk action; EvNotify action]))
  \/ (exists b w1, askPermission H action w
                   = (Val b, w1,
                      [EvAsk action; EvNotify action; EvAnswer b])).
Proof.
  assert (D : {env H "DISABLE_NOTIFICATIONS" = Some "true"}
               + {env H "DISABLE_NOTIFICATIONS" <> Some "true"}).
  { destruct (env H "DISABLE_NOTIFICATIONS") as [s|]; [|right; congruence].
    destruct (string_dec s "true") as [->|D]; [now left|right; congruence]. }
  destruct D as [E|E].
  - left. now apply askPermission_disabled.
  - right. rewrite (askPermission_enabled H action w E).
    destruct (notifier_notify H action w) as [[cb|] w1].
    + right. eexists _, w1. reflexivity.
    + left. exists w1. reflexivity.
Qed.

Lemma resize_one_run (a d : string) (results : list ResizeResult)
  (r : Resolution) (w : W) :
  exists x w1,
    resize_one H a d results r w
    = (Val (results ++ [x])%list, w1,
       [EvExec (resize_command a (resize_outputPath a d r) r)])
    /\ entry_for a d r x.
Proof.
  unfold resize_one, try_catch, bind, exec, await, ret, resize_outputPath.
  destruct (execAsync H _ w) as [[out|e] w1]; cbn.
  - eexists _, w1. split; [reflexivity|].
    repeat split. left. split; reflexivity.
  - eexists _, w1. split; [reflexivity|].
    repeat split. right. split; [reflexivity|]. now exists e.
Qed.

Lemma resize_loop_run (a d : string) (rs : list Resolution) :
  forall (results : list ResizeResult) (w : W),
  exists added w1,
    resize_loop H a d rs results w
    = (Val (results ++ added)%list, w1,
       map EvExec
           (map (fun r => resize_command a (resize_outputPath a d r) r) rs))
    /\ Forall2 (entry_for a d) rs added.
Proof.
  induction rs as [|r rs IH]; intros results w.
  - exists [], w. cbn. rewrite app_nil_r. split; [reflexivity|constructor].
  - cbn [resize_loop]. unfold bind at 1.
    destruct (resize_one_run a d results r w) as (x & w1 & E & Fx).
    rewrite E.
    destruct (IH (results ++ [x])%list w1) as (added & w2 & E2 & F).
    rewrite E2. exists (x :: added), w2. split.
    + rewrite <- app_assoc. reflexivity.
    + now constructor.
Qed.

Lemma outputDirectory_of_run (outputDir : option string) (w : W) :
  exists d w1 t,
    outputDirectory_of H outputDir w = (Val d, w1, t)
    /\ (t = [] \/ exists ok, t = [EvMkdir (path_join (os_tmpdir H)
                                                     "ffmpeg-output") ok]).
Proof.
  assert (D : exists d w1 t,
             ensureDirectoriesExist H w = (Val d, w1, t)
             /\ (t = [] \/ exists ok,
                    t = [EvMkdir (path_join (os_tmpdir H) "ffmpeg-output")
                                 ok])).
  { unfold ensureDirectoriesExist, try_catch, bind, mkdir, await, ret.
    destruct (fs_mkdir H _ w) as [[[]|e] w1]; cbn;
      eexists _, w1, _; (split; [reflexivity|right; eexists; reflexivity]). }
  unfold outputDirectory_of. destruct outputDir as [s|]; [|exact D].
  destruct (truthy (Some s)); [|exact D].
  exists (path_resolve s), w, []. split; [reflexivity|now left].
Qed.

End RunFacts.

Section ToolRuns.
Context {W : Type} (H : Host W) {N : NodeLib}.

Ltac run_monad :=
  unfold check_input, check_output, access, access_W_OK, exec;
  unfold await, try_catch, bind, return_, ret;
  cbv beta iota zeta.

Ltac next := cbv beta iota zeta delta [negb].

Ltac done_run := cbn [app]; rewrite ?app_nil_r; reflexivity.

(** Symbolic execution of [resize_video]. *)
Lemma resize_video_run (videoPath : string) (resolutions : list Resolution)
  (outputDir : option string) (w : W) :
  let a := path_resolve videoPath in
  match fs_access H a w with
  | (Rejected _, w1) =>
      resize_video H videoPath resolutions outputDir w
      = (Return (not_found a), w1, [EvAccess a false])
  | (Fulfilled _, w1) =>
      exists d w2 tdir,
        outputDirectory_of H outputDir w1 = (Val d, w2, tdir)
        /\ match fs_access_W_OK H d w2 with
           | (Rejected _, w3) =>
               resize_video H videoPath resolutions outputDir w
               = (Return (not_writable d), w3,
                  EvAccess a true :: tdir ++ [EvAccessW d false])%list
           | (Fulfilled _, w3) =>
               match askPermission H (resize_message a resolutions) w3 with
               | (Val true, w4, tg) =>
                   exists results w5,
                     resize_video H videoPath resolutions outputDir w
                     = (Return (text_result (resultText results)), w5,
                        EvAccess a true :: tdir ++ EvAccessW d true :: tg
                          ++ map EvExec (resize_commands a d resolutions))%list
                     /\ Forall2 (entry_for a d) resolutions results
               | (Val false, w4, tg) =>
                   resize_video H videoPath resolutions outputDir w
                   = (Return denied, w4,
                      EvAccess a true :: tdir ++ EvAccessW d true :: tg)%list
               | (Pending, w4, tg) =>
                   resize_video H videoPath resolutions outputDir w
                   = (Pending, w4,
                      EvAccess a true :: tdir ++ EvAccessW d true :: tg)%list
               | _ => True
               end
           end
  end.
Proof.
  intros a. unfold resize_video. fold a. run_monad.
  destruct (fs_access H a w) as [[[]|e] w1]; next; [|reflexivity].
  destruct (outputDirectory_of_run H outputDir w1) as (d & w2 & tdir & E & _).
  exists d, w2, tdir. split; [exact E|]. rewrite E. next.
  destruct (fs_access_W_OK H d w2) as [[[]|e] w3]; next; [|done_run].
  fold (resize_message a resolutions).
  destruct (askPermission H (resize_message a resolutions) w3)
    as [[[[|]|r|e|] w4] tg]; next; try exact I; try done_run.
  destruct (resize_loop_run H a d resolutions [] w4) as (rs & w5 & L & F).
  rewrite L. next. exists rs, w5. split; [|exact F].
  unfold resize_commands. done_run.
Qed.

(** Symbolic execution of [extract_audio]. *)
Lemma extract_audio_run (videoPath : string) (f : Format)
  (outputDir : option string) (w : W) :
  let a := path_resolve videoPath in
  match fs_access H a w with
  | (Rejected _, w1) =>
      extract_audio H videoPath f outputDir w
      = (Return (not_found a), w1, [EvAccess a false])
  | (Fulfilled _, w1) =>
      exists d w2 tdir,
        outputDirectory_of H outputDir w1 = (Val d, w2, tdir)
        /\ match fs_access_W_OK H d w2 with
           | (Rejected _, w3) =>
               extract_audio H videoPath f outputDir w
               = (Return (not_writable d), w3,
                  EvAccess a true :: tdir ++ [EvAccessW d false])%list
           | (Fulfilled _, w3) =>
               match askPermission H (extract_message a f) w3 with
               | (Val true, w4, tg) =>
                   let out := extract_outputPath a d f in
                   let command := extract_command a out f in
                   extract_audio H videoPath f outputDir w
                   = (Return
                        match fst (execAsync H command w4) with
                        | Fulfilled _ =>
                            text_result
                              ("Successfully extracted audio to: " ++ out)
                        | Rejected e =>
                            error_result ("Error extracting audio: " ++ e)
                        end,
                      snd (execAsync H command w4),
                      EvAccess a true :: tdir ++ EvAccessW d true :: tg
                        ++ map EvExec [command])%list
               | (Val false, w4, tg) =>
                   extract_audio H videoPath f outputDir w
                   = (Return denied, w4,
                      EvAccess a true :: tdir ++ EvAccessW d true :: tg)%list
               | (Pending, w4, tg) =>
                   extract_audio H videoPath f outputDir w
                   = (Pending, w4,
                      EvAccess a true :: tdir ++ EvAccessW d true :: tg)%list
               | _ => True
               end
           end
  end.
Proof.
  intros a. unfold extract_audio. fold a. run_monad.
  destruct (fs_access H a w) as [[[]|e] w1]; next; [|reflexivity].
  destruct (outputDirectory_of_run H outputDir w1) as (d & w2 & tdir & E & _).
  exists d, w2, tdir. split; [exact E|]. rewrite E. next.
  destruct (fs_access_W_OK H d w2) as [[[]|e] w3]; next; [|done_run].
  fold (extract_message a f).
  destruct (askPermission H (extract_message a f) w3)
    as [[[[|]|r|e|] w4] tg]; next; try exact I; try done_run.
  fold (extract_outputPath a d f).
  destruct (execAsync H _ w4) as [[out|e] w5]; next; cbn [fst snd map];
    done_run.
Qed.

(** Symbolic execution of [get_video_info]. *)
Lemma get_video_info_run (videoPath : string) (w : W) :
  let a := path_resolve videoPath in
  match fs_access H a w with
  | (Rejected _, w1) =>
      get_video_info H videoPath w
      = (Return (not_found a), w1, [EvAccess a false])
  | (Fulfilled _, w1) =>
      match askPermission H (info_message a) w1 with
      | (Val true, w2, tg) =>
          exists r,
            get_video_info H videoPath w
            = (Return r, snd (execAsync H (probe_command a) w2),
               EvAccess a true :: tg ++ map EvExec [probe_command a])%list
      | (Val false, w2, tg) =>
          get_video_info H videoPath w
          = (Return denied, w2, EvAccess a true :: tg)
      | (Pending, w2, tg) =>
          get_video_info H videoPath w = (Pending, w2, EvAccess a true :: tg)
      | _ => True
      end
  end.
Proof.
  intros a. unfold get_video_info. fold a. run_monad.
  destruct (fs_access H a w) as [[[]|e] w1]; next; [|reflexivity].
  fold (info_message a).
  destruct (askPermission H (info_message a) w1)
    as [[[[|]|r|e|] w2] tg]; next; try exact I; try done_run.
  destruct (execAsync H _ w2) as [[out|e] w3]; next; cbn [fst snd map].
  - destruct (describe_streams _ _); next; eexists; done_run.
  - eexists; done_run.
Qed.

Lemma Run_of_gate (pre : list Event) (action : string) (b : bool)
  (tg : list Event) (x : Res ToolResult unit) (t : list Event) :
  forallb passing pre = true ->
  (tg = [EvAsk action; EvAnswer true] /\ b = true)
  \/ tg = [EvAsk action; EvNotify action; EvAnswer b] ->
  (if b then exists r commands,
               x = Return r /\ t = (pre ++ tg ++ map EvExec commands)%list
   else x = Return denied /\ t = (pre ++ tg)%list) ->
  Run x t.
Proof.
  intros P [[-> ->]| ->]; [|destruct b].
  - intros (r & cs & -> & ->).
    apply (@RunGranted pre action [] cs r P). now left.
  - intros (r & cs & -> & ->).
    apply (@RunGranted pre action [EvNotify action] cs r P).
    now right.
  - intros [-> ->]. now apply RunDenied.
Qed.

Ltac lists := cbn [app]; rewrite <- ?app_assoc; cbn [app]; reflexivity.

(** Every run of a gated tool has one of the four shapes of [Run]. *)
Lemma handle_Run (c : Call) (w : W) :
  Run (result_of (handle H c w)) (trace_of (handle H c w)).
Proof.
  assert (P3 : forall x tdir,
             (tdir = [] \/ exists ok, tdir = [EvMkdir
                 (path_join (os_tmpdir H) "ffmpeg-output") ok]) ->
             forallb passing (EvAccess x true :: tdir) = true).
  { intros x tdir [->|[ok ->]]; reflexivity. }
  assert (P2 : forall x d tdir,
             (tdir = [] \/ exists ok, tdir = [EvMkdir
                 (path_join (os_tmpdir H) "ffmpeg-output") ok]) ->
             forallb passing (EvAccess x true :: tdir ++ [EvAccessW d true])
             = true).
  { intros x d tdir [->|[ok ->]]; reflexivity. }
  destruct c as [v rs o|v f o|v]; unfold handle.
  - pose proof (resize_video_run v rs o w) as R. cbv zeta in R.
    destruct (fs_access H (path_resolve v) w) as [[[]|e] w1].
    2:{ rewrite R. apply (@RunRejected [] (EvAccess _ false)); reflexivity. }
    destruct R as (d & w2 & tdir & E & R).
    destruct (outputDirectory_of_run H o w1) as (d' & w2' & tdir' & E' & T).
    rewrite E in E'. injection E' as <- <- <-.
    destruct (fs_access_W_OK H d w2) as [[[]|e] w3].
    2:{ rewrite R. unfold result_of, trace_of; cbn [fst snd].
        apply (@RunRejected (EvAccess _ true :: tdir) (EvAccessW d false));
          [now apply P3|reflexivity]. }
    specialize (P2 (path_resolve v) d tdir T).
    destruct (askPermission_cases H (resize_message (path_resolve v) rs) w3)
      as [A|[(w4 & A)|(b & w4 & A)]]; rewrite A in R.
    + destruct R as (results & w5 & -> & _).
      eapply (@Run_of_gate _ _ true _ _ _ P2); [left; split; reflexivity|].
      eexists _, _. split; [reflexivity|]. unfold trace_of. lists.
    + rewrite R. unfold result_of, trace_of; cbn [fst snd].
      replace (EvAccess _ true :: _)%list with
        ((EvAccess (path_resolve v) true :: tdir ++ [EvAccessW d true])
           ++ [EvAsk (resize_message (path_resolve v) rs);
               EvNotify (resize_message (path_resolve v) rs)])%list by lists.
      now apply RunPending.
    + eapply (@Run_of_gate _ _ b _ _ _ P2); [right; reflexivity|].
      destruct b.
      * destruct R as (results & w5 & -> & _).
        eexists _, _. split; [reflexivity|]. unfold trace_of. lists.
      * rewrite R. split; [reflexivity|]. unfold trace_of. lists.
  - pose proof (extract_audio_run v f o w) as R. cbv zeta in R.
    destruct (fs_access H (path_resolve v) w) as [[[]|e] w1].
    2:{ rewrite R. apply (@RunRejected [] (EvAccess _ false)); reflexivity. }
    destruct R as (d & w2 & tdir & E & R).
    destruct (outputDirectory_of_run H o w1) as (d' & w2' & tdir' & E' & T).
    rewrite E in E'. injection E' as <- <- <-.
    destruct (fs_access_W_OK H d w2) as [[[]|e] w3].
    2:{ rewrite R. unfold result_of, trace_of; cbn [fst snd].
        apply (@RunRejected (EvAccess _ true :: tdir) (EvAccessW d false));
          [now apply P3|reflexivity]. }
    specialize (P2 (path_resolve v) d tdir T).
    destruct (askPermission_cases H (extract_message (path_resolve v) f) w3)
      as [A|[(w4 & A)|(b & w4 & A)]]; rewrite A in R.
    + rewrite R.
      eapply (@Run_of_gate _ _ true _ _ _ P2); [left; split; reflexivity|].
      eexists _, _. split; [reflexivity|]. unfold trace_of. lists.
    + rewrite R. unfold result_of, trace_of; cbn [fst snd].
      replace (EvAccess _ true :: _)%list with
        ((EvAccess (path_resolve v) true :: tdir ++ [EvAccessW d true])
           ++ [EvAsk (extract_message (path_resolve v) f);
               EvNotify (extract_message (path_resolve v) f)])%list by lists.
      now apply RunPending.
    + eapply (@Run_of_gate _ _ b _ _ _ P2); [right; reflexivity|].
      destruct b; rewrite R.
      * eexists _, _. split; [reflexivity|]. unfold trace_of. lists.
      * split; [reflexivity|]. unfold trace_of. lists.
  - pose proof (get_video_info_run v w) as R. cbv zeta in R.
    destruct (fs_access H (path_resolve v) w) as [[[]|e] w1].
    2:{ rewrite R. apply (@RunRejected [] (EvAccess _ false)); reflexivity. }
    assert (P1 : forallb passing [EvAccess (path_resolve v) true] = true)
      by reflexivity.
    destruct (askPermission_cases H (info_message (path_resolve v)) w1)
      as [A|[(w4 & A)|(b & w4 & A)]]; rewrite A in R.
    + destruct R as (r & ->).
      eapply (@Run_of_gate _ _ true _ _ _ P1); [left; split; reflexivity|].
      eexists _, _. split; [reflexivity|]. unfold trace_of. lists.
    + rewrite R. unfold result_of, trace_of; cbn [fst snd].
      now apply (@RunPending [EvAccess (path_resolve v) true]).
    + eapply (@Run_of_gate _ _ b _ _ _ P1); [right; reflexivity|].
      destruct b.
      * destruct R as (r & ->).
        eexists _, _. split; [reflexivity|]. unfold trace_of. lists.
      * rewrite R. split; [reflexivity|]. unfold trace_of. lists.
Qed.

End ToolRuns.

(** ** Lists of events *)

Lemma exec_commands_app (t1 t2 : list Event) :
  exec_commands (t1 ++ t2) = (exec_commands t1 ++ exec_commands t2)%list.
Proof. unfold exec_commands. apply flat_map_app. Qed.

Lemma exec_commands_map (commands : list string) :
  exec_commands (map EvExec commands) = commands.
Proof.
  induction commands as [|c cs IH]; [reflexivity|].
  unfold exec_commands in *. cbn. now rewrite IH.
Qed.

Lemma exec_commands_passing (t : list Event) :
  forallb passing t = true -> exec_commands t = [].
Proof.
  induction t as [|e t IH]; [reflexivity|].
  cbn [forallb]. intros P. apply andb_prop in P as [Pe Pt].
  destruct e as [? []|? []|? ?|?|?|?|?]; try discriminate; cbn; now apply IH.
Qed.

Lemma passing_In (t : list Event) (e : Event) :
  forallb passing t = true -> In e t -> passing e = true.
Proof.
  intros P I. rewrite forallb_forall in P. now apply P.
Qed.

(** An event that is not in [l] and occurs in [l ++ rest] occurs in
    [rest]: what comes before it starts with [l]. *)
Lemma split_after (l rest pre post : list Event) (e : Event) :
  ~ In e l -> (l ++ rest = pre ++ e :: post)%list ->
  exists k, pre = (l ++ k)%list /\ rest = (k ++ e :: post)%list.
Proof.
  revert pre. induction l as [|x l IH]; intros pre NI E.
  - exists pre. now split.
  - destruct pre as [|y pre].
    + cbn in E. injection E as -> _. exfalso. apply NI. now left.
    + cbn in E. injection E as -> E.
      destruct (IH pre) as (k & -> & ->); [|exact E|].
      * intros I. apply NI. now right.
      * exists k. now split.
Qed.

Lemma no_exec_in_passing (t : list Event) (c : string) :
  forallb passing t = true -> ~ In (EvExec c) t.
Proof.
  intros P I. now apply (@passing_In _ _ P) in I.
Qed.

(** ** C1: the gate comes before every command *)

(** C1, as the code has it.  In every run of resize-video, extract-audio
    or get-video-info: (1) when no input check fails, [askPermission] is
    called; (2) whatever precedes an executed command contains the call of
    [askPermission] and, after it, the answer [true]; (3) when
    [askPermission] answers [false], the tool returns the error result
    "Permission denied by user" and no command was executed.  The answer
    [true] is what lets the action proceed; it need not come from the
    user. *)
Theorem gate_precedes_every_command {W : Type} (H : Host W) {N : NodeLib}
  (c : Call) (w : W) :
  let res := result_of (handle H c w) in
  let t := trace_of (handle H c w) in
  (existsb failed_check t = false -> exists action, In (EvAsk action) t)
  /\ (forall pre command post,
         t = (pre ++ EvExec command :: post)%list ->
         exists action before after,
           pre = (before ++ EvAsk action :: after)%list
           /\ In (EvAnswer true) after)
  /\ (In (EvAnswer false) t ->
      res = Return {| isError := true; text := "Permission denied by user" |}
      /\ exec_commands t = []).
Proof.
  cbv zeta. destruct (handle_Run H c w) as
    [pre e r P F|pre a P|pre a P|pre a shown cs r P S].
  - split; [|split].
    + rewrite existsb_app. cbn. rewrite F, orb_true_r. discriminate.
    + intros p c0 q E. exfalso.
      destruct (@split_after pre [e] p q _ (@no_exec_in_passing _ c0 P) E)
        as (k & _ & K).
      destruct k as [|x [|y k]]; cbn in K; try discriminate.
      injection K as -> _. discriminate.
    + intros I. exfalso. apply in_app_or in I as [I|[I|[]]].
      * now apply (@passing_In _ _ P) in I.
      * subst e. discriminate.
  - split; [|split].
    + intros _. exists a. apply in_or_app. right. now left.
    + intros p c0 q E. exfalso.
      destruct (@split_after pre _ p q _ (@no_exec_in_passing _ c0 P) E)
        as (k & _ & K).
      destruct k as [|x [|y [|z k]]]; cbn in K; discriminate.
    + intros I. exfalso. apply in_app_or in I as [I|[I|[I|[]]]];
        try discriminate.
      now apply (@passing_In _ _ P) in I.
  - split; [|split].
    + intros _. exists a. apply in_or_app. right. now left.
    + intros p c0 q E. exfalso.
      destruct (@split_after pre _ p q _ (@no_exec_in_passing _ c0 P) E)
        as (k & _ & K).
      destruct k as [|x [|y [|z [|u k]]]]; cbn in K; discriminate.
    + intros _. split; [reflexivity|].
      rewrite exec_commands_app, (@exec_commands_passing _ P). reflexivity.
  - split; [|split].
    + intros _. exists a. apply in_or_app. right. now left.
    + intros p c0 q E.
      destruct (@split_after pre _ p q _ (@no_exec_in_passing _ c0 P) E)
        as (k & -> & K).
      destruct k as [|x k]; [discriminate|]. injection K as <- K.
      assert (NI : ~ In (EvExec c0) (shown ++ [EvAnswer true])).
      { intros I. apply in_app_or in I as [I|[I|[]]]; [|discriminate].
        destruct S as [-> | ->]; [destruct I|].
        destruct I as [I|[]]. discriminate. }
      replace (shown ++ EvAnswer true :: map EvExec cs)%list
        with ((shown ++ [EvAnswer true]) ++ map EvExec cs)%list in K
        by (rewrite <- app_assoc; reflexivity).
      destruct (@split_after _ _ k q _ NI K) as (k' & -> & _).
      exists a, pre, ((shown ++ [EvAnswer true]) ++ k')%list.
      split; [reflexivity|].
      apply in_or_app. left. apply in_or_app. right. now left.
    + intros I. exfalso. apply in_app_or in I as [I|[I|I]];
        try discriminate.
      * now apply (@passing_In _ _ P) in I.
      * apply in_app_or in I as [I|[I|I]]; try discriminate.
        -- destruct S as [-> | ->]; [destruct I|].
           destruct I as [I|[]]. discriminate.
        -- apply in_map_iff in I as (x & X & _). discriminate.
Qed.

(** C1, as stated, fails: with [DISABLE_NOTIFICATIONS=true] get-video-info
    runs [ffprobe] although no dialog was shown and nobody approved. *)
Lemma command_without_user_approval :
  let t := trace_of (handle (machine quiet) (N := Posix.node "/videos")
                            (CallInfo "clip.avi") []) in
  exec_commands t
  = ["ffprobe -v quiet -print_format json -show_format -show_streams "
       ++ dq ++ "/videos/clip.avi" ++ dq]
  /\ existsb is_notify t = false.
Proof. vm_compute. split; reflexivity. Qed.

Lemma gate_precedes_every_command_witness :
  let granted := handle (machine (asking (Some allow)))
                        (N := Posix.node "/videos") (CallInfo "clip.avi") [] in
  let refused := handle (machine (asking (Some deny)))
                        (N := Posix.node "/videos")
                        (CallResize "clip.avi" [R720p] None) [] in
  (exists action, In (EvAsk action) (trace_of granted))
  /\ (exists action before after,
         [EvAccess "/videos/clip.avi" true;
          EvAsk "Analyze video file clip.avi";
          EvNotify "Analyze video file clip.avi"; EvAnswer true]
         = (before ++ EvAsk action :: after)%list
         /\ In (EvAnswer true) after)
  /\ (result_of refused
      = Return {| isError := true; text := "Permission denied by user" |}
      /\ exec_commands (trace_of refused) = []).
Proof.
  intros granted refused.
  destruct (gate_precedes_every_command
              (machine (asking (Some allow))) (N := Posix.node "/videos")
              (CallInfo "clip.avi") []) as (G1 & G2 & _).
  destruct (gate_precedes_every_command
              (machine (asking (Some deny))) (N := Posix.node "/videos")
              (CallResize "clip.avi" [R720p] None) []) as (_ & _ & D3).
  split; [apply G1; vm_compute; reflexivity|].
  split.
  - apply (G2 _ (probe_command "/videos/clip.avi") []).
    vm_compute. reflexivity.
  - apply D3. vm_compute. auto 10.
Defined.

(** ** C2: the command lines *)

Lemma resize_command_spec (input output : string) (r : Resolution) :
  resize_command input output r = spec_resize_command input output r.
Proof. destruct r; reflexivity. Qed.

Section Walk.
Context {W : Type} (H : Host W) {N : NodeLib}.

Lemma gate_quiet (action : string) (w w' : W) (r : Res ToolResult bool)
  (tg : list Event) :
  askPermission H action w = (r, w', tg) -> exec_commands tg = [].
Proof.
  intros E.
  destruct (askPermission_cases H action w) as [A|[(w1 & A)|(b & w1 & A)]];
    rewrite A in E; injection E as <- <- <-; reflexivity.
Qed.

Lemma dir_quiet (tdir : list Event) :
  (tdir = [] \/ exists ok, tdir = [EvMkdir (path_join (os_tmpdir H)
                                              "ffmpeg-output") ok]) ->
  exec_commands tdir = [].
Proof. intros [->|[ok ->]]; reflexivity. Qed.

End Walk.

Ltac walk H R a o w :=
  cbv zeta in R;
  let e := fresh "e" in
  destruct (fs_access H a w) as [[[]|e] w1] eqn:Eacc;
  [ destruct R as (d & w2 & tdir & Edir & R);
    destruct (outputDirectory_of_run H o w1)
      as (d' & w2' & tdir' & Edir' & T);
    rewrite Edir in Edir'; injection Edir' as <- <- <-;
    destruct (fs_access_W_OK H d w2) as [[[]|e] w3] eqn:Ew;
    [ match type of R with
      | context [askPermission H ?m ?w0] =>
          destruct (askPermission_cases H m w0)
            as [A|[(w4 & A)|(b & w4 & A)]];
          rewrite A in R
      end
    | ]
  | ].

Lemma exec_commands_cons (e : Event) (t : list Event) :
  exec_commands (e :: t)
  = match e with
    | EvExec c => c :: exec_commands t
    | _ => exec_commands t
    end.
Proof. destruct e; reflexivity. Qed.

Ltac commands :=
  unfold trace_of; cbn [snd];
  repeat (rewrite exec_commands_app || rewrite exec_commands_cons
          || rewrite exec_commands_map);
  cbv beta iota;
  change (exec_commands []) with (@nil string);
  cbn [app].

Lemma granted_map (commands : list string) :
  existsb is_granted (map EvExec commands) = false.
Proof. induction commands; [reflexivity|assumption]. Qed.

Ltac grants :=
  unfold trace_of; cbn [snd app existsb is_granted orb];
  rewrite ?granted_map; cbn [orb].

Section Granted.
Context {W : Type} (H : Host W) {N : NodeLib}.

Lemma gate_grants_run (message : string) (w w' : W) :
  gate_grants H message w w' ->
  exists tg,
    askPermission H message w = (Val true, w', tg)
    /\ exec_commands tg = [] /\ existsb is_granted tg = true.
Proof.
  intros [[E ->]|(E & cb & Q & Er & B)].
  - rewrite (askPermission_disabled H message w E).
    eexists. repeat split.
  - rewrite (askPermission_enabled H message w E), Q. cbv zeta. rewrite Er.
    assert (Z : is_Deny (buttonPressed cb) = false).
    { unfold is_Deny. destruct (buttonPressed cb) as [x|]; [|reflexivity].
      destruct (String.eqb_spec x "Deny") as [->|_]; [easy|reflexivity]. }
    rewrite Z. eexists. repeat split.
Qed.

Lemma outputDirectory_of_quiet (outputDir : option string) (w w' : W)
  (d : string) (tdir : list Event) :
  outputDirectory_of H outputDir w = (Val d, w', tdir) ->
  exec_commands tdir = [].
Proof.
  intros D.
  destruct (outputDirectory_of_run H outputDir w) as (d' & w2' & tdir' & D' & T).
  rewrite D in D'. injection D' as <- <- <-. exact (dir_quiet H T).
Qed.


(** The loop, command by command. *)
Lemma resize_loop_outcomes (a d : string) (rs : list Resolution) :
  forall (results : list ResizeResult) (w : W),
    resize_loop H a d rs results w
    = (Val (results
              ++ map (pushed a d)
                     (combine rs (exec_outcomes H (resize_commands a d rs) w)))%list,
       exec_world H (resize_commands a d rs) w,
       map EvExec (resize_commands a d rs)).
Proof.
  induction rs as [|r rs IH]; intros results w.
  - cbn. now rewrite app_nil_r.
  - unfold exec_world in *.
    cbn [resize_loop resize_commands map exec_outcomes fold_left combine].
    fold (resize_commands a d rs).
    unfold resize_one, try_catch, exec, await. unfold bind, ret.
    cbv beta iota zeta. fold (resize_outputPath a d r).
    destruct (execAsync H (resize_command a (resize_outputPath a d r) r) w)
      as [[out|e] w1]; cbv beta iota zeta; cbn [fst snd];
      rewrite IH; cbn [app]; rewrite <- app_assoc; reflexivity.
Qed.

Ltac unfold_handler :=
  unfold check_input, check_output, access, access_W_OK, exec;
  unfold await, try_catch, bind, return_, ret;
  cbv beta iota zeta.

Lemma resize_video_granted (videoPath : string)
  (resolutions : list Resolution) (outputDir : option string)
  (w w1 w2 w3 w4 : W) (d : string) (tdir : list Event) :
  fs_access H (path_resolve videoPath) w = (Fulfilled tt, w1) ->
  outputDirectory_of H outputDir w1 = (Val d, w2, tdir) ->
  fs_access_W_OK H d w2 = (Fulfilled tt, w3) ->
  gate_grants H (resize_message (path_resolve videoPath) resolutions) w3 w4 ->
  exists tg,
    exec_commands tg = [] /\ existsb is_granted tg = true
    /\ resize_video H videoPath resolutions outputDir w
       = (Return
            (text_result
               (resultText
                  (map (pushed (path_resolve videoPath) d)
                       (combine resolutions
                          (exec_outcomes H
                             (resize_commands (path_resolve videoPath) d
                                              resolutions) w4))))),
          exec_world H
            (resize_commands (path_resolve videoPath) d resolutions) w4,
          EvAccess (path_resolve videoPath) true
            :: tdir ++ EvAccessW d true
            :: tg ++ map EvExec
                       (resize_commands (path_resolve videoPath) d
                                        resolutions))%list.
Proof.
  intros A D Wr G. destruct (gate_grants_run G) as (tg & P & Q & Gr).
  exists tg. split; [exact Q|]. split; [exact Gr|].
  unfold resize_video. unfold_handler. rewrite A. cbv beta iota zeta.
  rewrite D. cbv beta iota zeta. rewrite Wr. cbv beta iota zeta.
  fold (resize_message (path_resolve videoPath) resolutions). rewrite P.
  cbv beta iota zeta delta [negb].
  rewrite (resize_loop_outcomes (path_resolve videoPath) d resolutions [] w4).
  cbv beta iota zeta. cbn [app]. rewrite ?app_nil_r. reflexivity.
Qed.

Lemma extract_audio_granted (videoPath : string) (format : Format)
  (outputDir : option string) (w w1 w2 w3 w4 : W) (d : string)
  (tdir : list Event) :
  fs_access H (path_resolve videoPath) w = (Fulfilled tt, w1) ->
  outputDirectory_of H outputDir w1 = (Val d, w2, tdir) ->
  fs_access_W_OK H d w2 = (Fulfilled tt, w3) ->
  gate_grants H (extract_message (path_resolve videoPath) format) w3 w4 ->
  let out := extract_outputPath (path_resolve videoPath) d format in
  let command := extract_command (path_resolve videoPath) out format in
  exists tg,
    exec_commands tg = [] /\ existsb is_granted tg = true
    /\ extract_audio H videoPath format outputDir w
       = (Return
            match fst (execAsync H command w4) with
            | Fulfilled _ =>
                text_result ("Successfully extracted audio to: " ++ out)
            | Rejected e => error_result ("Error extracting audio: " ++ e)
            end,
          snd (execAsync H command w4),
          EvAccess (path_resolve videoPath) true
            :: tdir ++ EvAccessW d true :: tg ++ [EvExec command])%list.
Proof.
  intros A D Wr G. cbv zeta.
  destruct (gate_grants_run G) as (tg & P & Q & Gr).
  exists tg. split; [exact Q|]. split; [exact Gr|].
  pose proof (extract_audio_run H videoPath format outputDir w) as R.
  cbv zeta in R. rewrite A in R.
  destruct R as (d' & w2' & tdir' & D' & R). rewrite D in D'.
  injection D' as <- <- <-. rewrite Wr, P in R. exact R.
Qed.

Lemma get_video_info_granted (videoPath : string) (w w1 w2 : W) :
  fs_access H (path_resolve videoPath) w = (Fulfilled tt, w1) ->
  gate_grants H (info_message (path_resolve videoPath)) w1 w2 ->
  let command := probe_command (path_resolve videoPath) in
  exists tg,
    exec_commands tg = [] /\ existsb is_granted tg = true
    /\ get_video_info H videoPath w
       = (Return
            match fst (execAsync H command w2) with
            | Fulfilled out =>
                match describe_streams
                        (path_basename (path_resolve videoPath))
                        (stdout out) with
                | Fulfilled formattedInfo => text_result formattedInfo
                | Rejected e =>
                    error_result ("Error getting video information: " ++ e)
                end
            | Rejected e =>
                error_result ("Error getting video information: " ++ e)
            end,
          snd (execAsync H command w2),
          EvAccess (path_resolve videoPath) true
            :: tg ++ [EvExec command])%list.
Proof.
  intros A G. cbv zeta.
  destruct (gate_grants_run G) as (tg & P & Q & Gr).
  exists tg. split; [exact Q|]. split; [exact Gr|].
  unfold get_video_info. unfold_handler. rewrite A. cbv beta iota zeta.
  fold (info_message (path_resolve videoPath)). rewrite P.
  cbv beta iota zeta delta [negb].
  destruct (execAsync H (probe_command (path_resolve videoPath)) w2)
    as [[out|e] w3]; cbv beta iota zeta; cbn [fst snd].
  - destruct (describe_streams _ _); cbv beta iota zeta; cbn [app];
      rewrite ?app_nil_r; reflexivity.
  - cbn [app]. rewrite ?app_nil_r. reflexivity.
Qed.

End Granted.

Ltac executed E :=
  rewrite E; unfold trace_of; cbn [snd];
  repeat (rewrite exec_commands_app || rewrite exec_commands_cons
          || rewrite exec_commands_map);
  cbv beta iota.

(** C2.  On a host where the input is accessible, the output directory is
    writable and the gate resolves [true], resize-video executes, in
    request order, exactly the command line of the specification for each
    requested resolution, with the scale taken from the fixed table, the
    resolved input path and an output path in the output directory, and
    extract-audio executes exactly the one command
    [ffmpeg -i <input> -vn -acodec <codec> <output>], whose codec is a
    function of the requested format alone.  The paths are put in double
    quotes.  On any host, these commands are all that is executed. *)
Theorem commands_are_constructed {W : Type} (H : Host W) {N : NodeLib}
  (videoPath : string) (resolutions : list Resolution) (format : Format)
  (outputDir : option string) (w : W) :
  let input := path_resolve videoPath in
  let resize := trace_of (resize_video H videoPath resolutions outputDir w) in
  let extract := trace_of (extract_audio H videoPath format outputDir w) in
  let resize_line dir r :=
    "ffmpeg -i " ++ dq ++ input ++ dq
      ++ " -vf " ++ dq ++ spec_scale r ++ dq
      ++ " -c:v libx264 -crf 23 -preset medium -c:a aac -b:a 128k "
      ++ dq ++ path_join dir (resize_outputFilename input r) ++ dq in
  let extract_line output :=
    "ffmpeg -i " ++ dq ++ input ++ dq ++ " -vn -acodec "
      ++ audioCodec format ++ " " ++ dq ++ output ++ dq in
  (forall w1 d w2 tdir w3,
      fs_access H input w = (Fulfilled tt, w1) ->
      outputDirectory_of H outputDir w1 = (Val d, w2, tdir) ->
      fs_access_W_OK H d w2 = (Fulfilled tt, w3) ->
      ((forall w4,
           gate_grants H (resize_message input resolutions) w3 w4 ->
           exec_commands resize = map (resize_line d) resolutions)
       /\ (forall w4,
              gate_grants H (extract_message input format) w3 w4 ->
              exec_commands extract
              = [extract_line
                   (path_join d
                      (path_basename_ext input (path_extname input)
                         ++ "." ++ format_name format))])))
  /\ (exists dir,
         exec_commands resize
         = if existsb is_granted resize then map (resize_line dir) resolutions
           else [])
  /\ (exists output,
         exec_commands extract
         = if existsb is_granted extract then [extract_line output] else []).
Proof.
  cbv zeta. split; [|split].
  - intros w1 d w2 tdir w3 A D Wr.
    pose proof (outputDirectory_of_quiet H outputDir w1 D) as T.
    split; intros w4 G.
    + destruct (@resize_video_granted W H N videoPath resolutions
                  outputDir w w1 w2 w3 w4 d tdir A D Wr G) as (tg & Q & _ & E).
      executed E. rewrite T, Q. cbn [app]. unfold resize_commands.
      apply map_ext. intros r. apply resize_command_spec.
    + destruct (@extract_audio_granted W H N videoPath format
                  outputDir w w1 w2 w3 w4 d tdir A D Wr G) as (tg & Q & _ & E).
      executed E. rewrite T, Q. reflexivity.
  - pose proof (resize_video_run H videoPath resolutions outputDir w) as R.
    walk H R (path_resolve videoPath) outputDir w;
      [exists d|exists d|exists d|exists d|exists ""];
      try (destruct T as [->|[ok ->]]);
      try (destruct b);
      try (destruct R as (results & w5 & -> & _));
      try rewrite R; grants; commands; try reflexivity;
      apply map_ext; intros r; apply resize_command_spec.
  - pose proof (extract_audio_run H videoPath format outputDir w) as R.
    walk H R (path_resolve videoPath) outputDir w;
      try (exists (extract_outputPath (path_resolve videoPath) d format));
      try (exists "");
      try (destruct T as [->|[ok ->]]);
      try (destruct b);
      rewrite R; grants; commands; reflexivity.
Qed.

Lemma commands_are_constructed_witness :
  exec_commands
    (trace_of (resize_video (machine quiet) (N := Posix.node "/videos")
                            "clip.avi" [R360p; R720p] None []))
  = ["ffmpeg -i " ++ dq ++ "/videos/clip.avi" ++ dq
       ++ " -vf " ++ dq ++ "scale=640:360" ++ dq
       ++ " -c:v libx264 -crf 23 -preset medium -c:a aac -b:a 128k "
       ++ dq ++ "/tmp/ffmpeg-output/clip_360p.avi" ++ dq;
     "ffmpeg -i " ++ dq ++ "/videos/clip.avi" ++ dq
       ++ " -vf " ++ dq ++ "scale=1280:720" ++ dq
       ++ " -c:v libx264 -crf 23 -preset medium -c:a aac -b:a 128k "
       ++ dq ++ "/tmp/ffmpeg-output/clip_720p.avi" ++ dq]
  /\ exec_commands
       (trace_of (extract_audio (machine (asking (Some allow)))
                                (N := Posix.node "/videos")
                                "clip.avi" wav (Some "/out") ["/out"]))
     = ["ffmpeg -i " ++ dq ++ "/videos/clip.avi" ++ dq
          ++ " -vn -acodec pcm_s16le " ++ dq ++ "/out/clip.wav" ++ dq].
Proof.
  split.
  - apply (proj1 (proj1 (commands_are_constructed (machine quiet)
                           (N := Posix.node "/videos") "clip.avi"
                           [R360p; R720p] wav None [])
                        [] "/tmp/ffmpeg-output" ["/tmp/ffmpeg-output"]
                        [EvMkdir "/tmp/ffmpeg-output" true]
                        ["/tmp/ffmpeg-output"]
                        eq_refl eq_refl eq_refl)
                 ["/tmp/ffmpeg-output"]).
    left. split; reflexivity.
  - apply (proj2 (proj1 (commands_are_constructed
                           (machine (asking (Some allow)))
                           (N := Posix.node "/videos") "clip.avi"
                           [R360p] wav (Some "/out") ["/out"])
                        ["/out"] "/out" ["/out"] [] ["/out"]
                        eq_refl eq_refl eq_refl)
                 ["/out"]).
    right. split; [vm_compute; discriminate|].
    exists allow. split; [reflexivity|]. split; [reflexivity|].
    vm_compute. discriminate.
Defined.

(** ** C4: the order of the input checks *)

(** C4.  resize-video and extract-audio first check the resolved input
    path: when it is not accessible they return
    "Error: Video file not found at <path>" and that check is the whole
    trace.  Otherwise they determine the output directory and check that it
    is writable: when it is not they return
    "Error: Output directory <dir> does not exist or is not writable", and
    the trace holds the two checks (and the [mkdir] of the default
    directory) but no question to the user and no command. *)
Theorem validation_comes_first {W : Type} (H : Host W) {N : NodeLib}
  (videoPath : string) (resolutions : list Resolution) (format : Format)
  (outputDir : option string) (w : W) :
  let a := path_resolve videoPath in
  (forall e w1,
      fs_access H a w = (Rejected e, w1) ->
      let r := (Return {| isError := true;
                          text := "Error: Video file not found at " ++ a |},
                w1, [EvAccess a false]) in
      resize_video H videoPath resolutions outputDir w = r
      /\ extract_audio H videoPath format outputDir w = r)
  /\ (forall w1 d w2 tdir e w3,
         fs_access H a w = (Fulfilled tt, w1) ->
         outputDirectory_of H outputDir w1 = (Val d, w2, tdir) ->
         fs_access_W_OK H d w2 = (Rejected e, w3) ->
         let r := (Return {| isError := true;
                             text := "Error: Output directory " ++ d
                                       ++ " does not exist or is not writable" |},
                   w3, (EvAccess a true :: tdir ++ [EvAccessW d false])%list) in
         resize_video H videoPath resolutions outputDir w = r
         /\ extract_audio H videoPath format outputDir w = r
         /\ existsb is_ask (trace_of r) = false
         /\ exec_commands (trace_of r) = []).
Proof.
  cbv zeta. split.
  - intros e w1 E.
    pose proof (resize_video_run H videoPath resolutions outputDir w) as R.
    pose proof (extract_audio_run H videoPath format outputDir w) as X.
    cbv zeta in R, X. rewrite E in R, X. now split.
  - intros w1 d w2 tdir e w3 E D A.
    pose proof (resize_video_run H videoPath resolutions outputDir w) as R.
    pose proof (extract_audio_run H videoPath format outputDir w) as X.
    cbv zeta in R, X. rewrite E in R, X.
    destruct R as (d1 & u1 & t1 & D1 & R). rewrite D in D1.
    injection D1 as <- <- <-. rewrite A in R.
    destruct X as (d1 & u1 & t1 & D1 & X). rewrite D in D1.
    injection D1 as <- <- <-. rewrite A in X.
    destruct (outputDirectory_of_run H outputDir w1) as (d1 & u1 & t1 & D1 & T).
    rewrite D in D1. injection D1 as <- <- <-.
    repeat split; [exact R|exact X| |];
      destruct T as [->|[ok ->]]; reflexivity.
Qed.

Lemma validation_comes_first_witness :
  resize_video (machine no_clip) (N := Posix.node "/videos")
               "clip.avi" [R360p] None []
  = (Return {| isError := true;
               text := "Error: Video file not found at /videos/clip.avi" |},
     [], [EvAccess "/videos/clip.avi" false])
  /\ extract_audio (machine (asking (Some allow))) (N := Posix.node "/videos")
                   "clip.avi" mp3 (Some "/out") []
     = (Return {| isError := true;
                  text := "Error: Output directory /out does not exist or is not writable" |},
        [], [EvAccess "/videos/clip.avi" true; EvAccessW "/out" false]).
Proof.
  split.
  - apply (proj1 (validation_comes_first (machine no_clip)
                    (N := Posix.node "/videos") "clip.avi" [R360p] mp3 None [])
                 "ENOENT" []).
    vm_compute. reflexivity.
  - apply (proj2 (validation_comes_first (machine (asking (Some allow)))
                    (N := Posix.node "/videos") "clip.avi" [R360p] mp3
                    (Some "/out") [])
                 [] "/out" [] [] "EACCES" []);
      vm_compute; reflexivity.
Defined.

(** ** C5: the gate can be switched off *)

(** C5.  With [DISABLE_NOTIFICATIONS] equal to ['true'], [askPermission]
    resolves [true] without calling the notifier, so that no run of a gated
    tool shows a dialog and every run whose input checks pass is granted.
    Otherwise the notifier is called: while its callback is not called
    [askPermission] stays pending, and when the callback reports an error
    [askPermission] resolves [false]. *)
Theorem gate_is_optional {W : Type} (H : Host W) {N : NodeLib}
  (action : string) (w : W) :
  (env H "DISABLE_NOTIFICATIONS" = Some "true" ->
   askPermission H action w = (Val true, w, [EvAsk action; EvAnswer true])
   /\ forall c w0,
        let t := trace_of (handle H c w0) in
        existsb is_notify t = false
        /\ (existsb failed_check t = false -> existsb is_granted t = true))
  /\ (env H "DISABLE_NOTIFICATIONS" <> Some "true" ->
      (forall w1,
          notifier_notify H action w = (None, w1) ->
          askPermission H action w
          = (Pending, w1, [EvAsk action; EvNotify action]))
      /\ (forall cb w1,
             notifier_notify H action w = (Some cb, w1) ->
             exists b,
               askPermission H action w
               = (Val b, w1, [EvAsk action; EvNotify action; EvAnswer b])
               /\ (forall e, cb_err cb = Some e -> b = false))).
Proof.
  split.
  - intros E. split; [now apply askPermission_disabled|].
    intros c w0. cbv zeta. destruct c as [v rs o|v f o|v]; unfold handle.
    + pose proof (resize_video_run H v rs o w0) as R.
      walk H R (path_resolve v) o w0;
        try (rewrite (askPermission_disabled H _ _ E) in A; discriminate A);
        try (destruct T as [->|[ok ->]]);
        try (destruct R as (results & w5 & -> & _));
        try rewrite R; unfold trace_of; cbn [snd app existsb is_notify orb];
        try (split; [reflexivity|discriminate]);
        (split; [now induction (resize_commands _ _ _)|]);
        intros _; grants; reflexivity.
    + pose proof (extract_audio_run H v f o w0) as R.
      walk H R (path_resolve v) o w0;
        try (rewrite (askPermission_disabled H _ _ E) in A; discriminate A);
        try (destruct T as [->|[ok ->]]);
        rewrite R; unfold trace_of; cbn [snd app existsb is_notify orb];
        try (split; [reflexivity|discriminate]);
        (split; [reflexivity|]); intros _; grants; reflexivity.
    + pose proof (get_video_info_run H v w0) as R. cbv zeta in R.
      destruct (fs_access H (path_resolve v) w0) as [[[]|e] w1].
      * rewrite (askPermission_disabled H _ _ E) in R.
        destruct R as (r & ->). split; reflexivity.
      * rewrite R. split; [reflexivity|discriminate].
  - intros E. split.
    + intros w1 Q. rewrite (askPermission_enabled H action w E), Q.
      reflexivity.
    + intros cb w1 Q. rewrite (askPermission_enabled H action w E), Q.
      eexists. split; [reflexivity|]. intros e ->. reflexivity.
Qed.

Lemma gate_is_optional_witness :
  askPermission (machine quiet) "Analyze video file clip.avi" []
  = (Val true, [], [EvAsk "Analyze video file clip.avi"; EvAnswer true])
  /\ askPermission (machine (asking None)) "Analyze video file clip.avi" []
     = (Pending, [],
        [EvAsk "Analyze video file clip.avi";
         EvNotify "Analyze video file clip.avi"])
  /\ exists b,
       askPermission (machine (asking (Some notifier_error)))
                     "Analyze video file clip.avi" []
       = (Val b, [],
          [EvAsk "Analyze video file clip.avi";
           EvNotify "Analyze video file clip.avi"; EvAnswer b])
       /\ b = false.
Proof.
  split; [|split].
  - apply (proj1 (gate_is_optional (machine quiet) (N := Posix.node "/videos")
                    "Analyze video file clip.avi" [])).
    vm_compute. reflexivity.
  - apply (proj2 (gate_is_optional (machine (asking None))
                    (N := Posix.node "/videos")
                    "Analyze video file clip.avi" [])).
    + vm_compute. discriminate.
    + vm_compute. reflexivity.
  - destruct (proj2 (gate_is_optional (machine (asking (Some notifier_error)))
                       (N := Posix.node "/videos")
                       "Analyze video file clip.avi" [])) as [_ F].
    + vm_compute. discriminate.
    + destruct (F notifier_error []) as (b & A & B);
        [vm_compute; reflexivity|].
      exists b. split; [exact A|]. apply (B "notifier failed"). reflexivity.
Defined.

(** ** C8: the report of resize-video *)



Section Report.
Context {W : Type} (H : Host W) {N : NodeLib}.





End Report.




(** A run in which the failure of the first command did not stop the
    second. *)
Example resize_half_broken :
  let run := resize_video (machine half_broken) (N := Posix.node "/videos")
                          "clip.avi" [R360p; R720p] None [] in
  result_of run
  = Return
      {| isError := false;
         text := "Processed 2 resolutions (1 successful, 1 failed)" ++ nl ++ nl
                   ++ "❌ 360p: Failed - Command failed: ffmpeg -i "
                   ++ dq ++ "/videos/clip.avi" ++ dq ++ " -vf "
                   ++ dq ++ "scale=640:360" ++ dq
                   ++ " -c:v libx264 -crf 23 -preset medium -c:a aac -b:a 128k "
                   ++ dq ++ "/tmp/ffmpeg-output/clip_360p.avi" ++ dq ++ nl
                   ++ nl
                   ++ "✅ 720p: /tmp/ffmpeg-output/clip_720p.avi" ++ nl |}
  /\ length (exec_commands (trace_of run)) = 2.
Proof. vm_compute. split; reflexivity. Qed.

(** ** C9: the default output directory *)

(** C9.  [ensureDirectoriesExist] never throws: it resolves to
    [<os-tmpdir>/ffmpeg-output] when [mkdir] succeeds and to the OS temp
    directory itself when [mkdir] fails.  Without an [outputDir] argument
    resize-video and extract-audio, once the input check has passed, create
    and check that directory; on a host where it is writable and the gate
    resolves [true], resize-video runs one command per requested resolution
    and extract-audio its one command, and every output path is a file
    directly in that directory. *)
Theorem default_output_directory {W : Type} (H : Host W) {N : NodeLib}
  (videoPath : string) (resolutions : list Resolution) (format : Format)
  (w : W) :
  let a := path_resolve videoPath in
  let default := path_join (os_tmpdir H) "ffmpeg-output" in
  let made w0 := match fst (fs_mkdir H default w0) with
                 | Fulfilled _ => true
                 | Rejected _ => false
                 end in
  let chosen w0 := if made w0 then default else os_tmpdir H in
  (forall w0,
      ensureDirectoriesExist H w0
      = (Val (chosen w0), snd (fs_mkdir H default w0),
         [EvMkdir default (made w0)]))
  /\ (forall w1,
         fs_access H a w = (Fulfilled tt, w1) ->
         let dir := chosen w1 in
         let resize := trace_of (resize_video H videoPath resolutions None w) in
         let extract := trace_of (extract_audio H videoPath format None w) in
         (exists writable rest,
             resize = EvAccess a true :: EvMkdir default (made w1)
                        :: EvAccessW dir writable :: rest)
         /\ (exists writable rest,
                extract = EvAccess a true :: EvMkdir default (made w1)
                            :: EvAccessW dir writable :: rest)
         /\ (forall w3,
                fs_access_W_OK H dir (snd (fs_mkdir H default w1))
                = (Fulfilled tt, w3) ->
                (forall w4,
                    gate_grants H (resize_message a resolutions) w3 w4 ->
                    exec_commands resize
                    = map (fun r =>
                             resize_command a
                               (path_join dir (resize_outputFilename a r)) r)
                          resolutions)
                /\ (forall w4,
                       gate_grants H (extract_message a format) w3 w4 ->
                       exec_commands extract
                       = [extract_command a
                            (path_join dir
                               (path_basename_ext a (path_extname a)
                                  ++ "." ++ format_name format))
                            format]))).
Proof.
  cbv zeta.
  assert (D : forall w0,
             ensureDirectoriesExist H w0
             = (Val (if match fst (fs_mkdir H (path_join (os_tmpdir H)
                                                 "ffmpeg-output") w0) with
                        | Fulfilled _ => true
                        | Rejected _ => false
                        end
                     then path_join (os_tmpdir H) "ffmpeg-output"
                     else os_tmpdir H),
                snd (fs_mkdir H (path_join (os_tmpdir H) "ffmpeg-output") w0),
                [EvMkdir (path_join (os_tmpdir H) "ffmpeg-output")
                   match fst (fs_mkdir H (path_join (os_tmpdir H)
                                            "ffmpeg-output") w0) with
                   | Fulfilled _ => true
                   | Rejected _ => false
                   end])).
  { intros w0.
    unfold ensureDirectoriesExist, try_catch, bind, mkdir, await, ret.
    destruct (fs_mkdir H _ w0) as [[[]|e] w1]; reflexivity. }
  split; [exact D|]. intros w1 E.
  pose proof (resize_video_run H videoPath resolutions None w) as R.
  pose proof (extract_audio_run H videoPath format None w) as X.
  cbv zeta in R, X. rewrite E in R, X.
  destruct R as (d & w2 & tdir & Ed & R).
  destruct X as (d' & w2' & tdir' & Ed' & X).
  rewrite Ed in Ed'. injection Ed' as <- <- <-.
  pose proof Ed as Ed0.
  change (outputDirectory_of H None w1) with (ensureDirectoriesExist H w1)
    in Ed.
  rewrite D in Ed. injection Ed as <- <- <-.
  split; [|split].
  - clear X.
    destruct (fs_access_W_OK H _ _) as [[[]|e] w3];
      [|rewrite R; unfold trace_of; cbn [snd app]; eexists _, _;
        reflexivity].
    match type of R with
    | context [askPermission H ?m ?w0] =>
        destruct (askPermission_cases H m w0) as [A|[(w4 & A)|(b & w4 & A)]];
          rewrite A in R
    end;
    try (destruct b); try (destruct R as (results & w5 & -> & _));
    try rewrite R; unfold trace_of; cbn [snd app]; eexists _, _;
    reflexivity.
  - clear R.
    destruct (fs_access_W_OK H _ _) as [[[]|e] w3];
      [|rewrite X; unfold trace_of; cbn [snd app]; eexists _, _;
        reflexivity].
    match type of X with
    | context [askPermission H ?m ?w0] =>
        destruct (askPermission_cases H m w0) as [A|[(w4 & A)|(b & w4 & A)]];
          rewrite A in X
    end;
    try (destruct b); rewrite X; unfold trace_of; cbn [snd app];
    eexists _, _; reflexivity.
  - intros w3 Wr. split; intros w4 G.
    + destruct (@resize_video_granted W H N videoPath resolutions None
                  w w1 _ w3 w4 _ _ E Ed0 Wr G) as (tg & Q & _ & Z).
      executed Z. rewrite Q. reflexivity.
    + destruct (@extract_audio_granted W H N videoPath format None
                  w w1 _ w3 w4 _ _ E Ed0 Wr G) as (tg & Q & _ & Z).
      executed Z. rewrite Q. reflexivity.
Qed.

Lemma default_output_directory_witness :
  ensureDirectoriesExist (machine no_mkdir) (N := Posix.node "/videos") ["/tmp"]
  = (Val "/tmp", ["/tmp"], [EvMkdir "/tmp/ffmpeg-output" false])
  /\ exec_commands
       (trace_of (resize_video (machine no_mkdir) (N := Posix.node "/videos")
                               "clip.avi" [R360p; R720p] None ["/tmp"]))
     = ["ffmpeg -i " ++ dq ++ "/videos/clip.avi" ++ dq
          ++ " -vf " ++ dq ++ "scale=640:360" ++ dq
          ++ " -c:v libx264 -crf 23 -preset medium -c:a aac -b:a 128k "
          ++ dq ++ "/tmp/clip_360p.avi" ++ dq;
        "ffmpeg -i " ++ dq ++ "/videos/clip.avi" ++ dq
          ++ " -vf " ++ dq ++ "scale=1280:720" ++ dq
          ++ " -c:v libx264 -crf 23 -preset medium -c:a aac -b:a 128k "
          ++ dq ++ "/tmp/clip_720p.avi" ++ dq]
  /\ exec_commands
       (trace_of (extract_audio (machine no_mkdir) (N := Posix.node "/videos")
                                "clip.avi" mp3 None ["/tmp"]))
     = ["ffmpeg -i " ++ dq ++ "/videos/clip.avi" ++ dq
          ++ " -vn -acodec libmp3lame " ++ dq ++ "/tmp/clip.mp3" ++ dq].
Proof.
  pose proof (default_output_directory (machine no_mkdir)
                (N := Posix.node "/videos") "clip.avi" [R360p; R720p] mp3
                ["/tmp"])
    as [D T].
  split; [apply D|].
  destruct (T ["/tmp"] eq_refl) as (_ & _ & K).
  destruct (K ["/tmp"] eq_refl) as [Rz Ex].
  split.
  - rewrite (Rz ["/tmp"] (or_introl (conj eq_refl eq_refl))).
    vm_compute. reflexivity.
  - rewrite (Ex ["/tmp"] (or_introl (conj eq_refl eq_refl))).
    vm_compute. reflexivity.
Defined.

(** The same two tools on a machine where [mkdir] succeeds. *)
Example default_directory_is_made :
  exec_commands
    (trace_of (resize_video (machine quiet) (N := Posix.node "/videos")
                            "clip.avi" [R480p] None []))
  = ["ffmpeg -i " ++ dq ++ "/videos/clip.avi" ++ dq
       ++ " -vf " ++ dq ++ "scale=854:480" ++ dq
       ++ " -c:v libx264 -crf 23 -preset medium -c:a aac -b:a 128k "
       ++ dq ++ "/tmp/ffmpeg-output/clip_480p.avi" ++ dq]
  /\ exec_commands
       (trace_of (extract_audio (machine quiet) (N := Posix.node "/videos")
                                "clip.avi" aac None []))
     = ["ffmpeg -i " ++ dq ++ "/videos/clip.avi" ++ dq
          ++ " -vn -acodec aac " ++ dq ++ "/tmp/ffmpeg-output/clip.aac" ++ dq].
Proof. vm_compute. split; reflexivity. Qed.

(** ** C3: what the two front-ends expose *)

(** C3, as the code has it.  The MCP server registers a tool for each of
    the three operations (and get-ffmpeg-version); the HTTP API registers
    exactly two routes, [POST /api/resize] and [POST /api/extract-audio],
    so it exposes resizing and audio extraction and no metadata report. *)
Theorem front_ends_expose (op : Operation) :
  mcp_exposes op = true
  /\ http_exposes op = negb (operation_eqb op MetadataOp)
  /\ map fst tools
     = ["get-ffmpeg-version"; "resize-video"; "extract-audio";
        "get-video-info"]
  /\ map fst Http.routes
     = [("POST", "/api/resize"); ("POST", "/api/extract-audio")].
Proof. destruct op; repeat split; reflexivity. Qed.

(** C3, as stated, fails: no route of the HTTP API reports metadata. *)
Lemma http_has_no_metadata_route : http_exposes MetadataOp = false.
Proof. reflexivity. Qed.

(** ** C6: the two front-ends compared *)

(** C6, as the code has it.  For mp3 and aac both front-ends select the
    same codec.  Both name a resize output [<stem>_<resolution>] followed
    by an extension; the MCP tool keeps the extension of the input, the
    HTTP endpoint always writes [.mp4]; so for one stem the two names are
    equal when the input has the extension [.mp4]. *)
Theorem front_ends_agree_partly {N : NodeLib} (outputDir input videoPath
  filename : string) (f : Format) (r : Resolution) :
  (f = mp3 \/ f = aac ->
   audioCodec f = Http.audioCodec (format_name f))
  /\ resize_outputFilename input r
     = path_basename_ext input (path_extname input) ++ "_"
         ++ resolution_name r ++ path_extname input
  /\ Http.job_outputFilename
       (Http.make_job outputDir videoPath (path_parse_name filename)
                      (JStr (resolution_name r)))
     = path_parse_name filename ++ "_" ++ resolution_name r ++ ".mp4"
  /\ (path_extname input = ".mp4" ->
      path_parse_name filename
      = path_basename_ext input (path_extname input) ->
      resize_outputFilename input r
      = Http.job_outputFilename
          (Http.make_job outputDir videoPath (path_parse_name filename)
                         (JStr (resolution_name r)))).
Proof.
  split; [|split; [|split]].
  - intros [-> | ->]; reflexivity.
  - reflexivity.
  - reflexivity.
  - intros E S. unfold Http.make_job, Http.job_outputFilename,
      Http.resize_outputFilename, Http.template, resize_outputFilename.
    rewrite S, E. reflexivity.
Qed.

Lemma front_ends_agree_partly_witness :
  audioCodec aac = Http.audioCodec "aac"
  /\ resize_outputFilename (N := Posix.node "/videos") "/videos/clip.mp4" R720p
     = Http.job_outputFilename
         (Http.make_job (N := Posix.node "/srv") "/srv/output"
                        "/srv/uploads/clip.mp4" "clip" (JStr "720p")).
Proof.
  split.
  - apply (proj1 (front_ends_agree_partly (N := Posix.node "/videos")
                    "/srv/output" "/videos/clip.mp4" "/srv/uploads/clip.mp4"
                    "clip.mp4" aac R720p)).
    right. reflexivity.
  - apply (proj2 (proj2 (proj2
             (front_ends_agree_partly (N := Posix.node "/videos")
                "/srv/output" "/videos/clip.mp4" "/srv/uploads/clip.mp4"
                "clip.mp4" aac R720p)))); vm_compute; reflexivity.
Defined.

(** C6, as stated, fails: for wav the MCP tool selects [pcm_s16le] and the
    HTTP endpoint [wav], and an [.avi] input is resized to an [.avi] file
    by the MCP tool and to an [.mp4] file by the HTTP endpoint. *)
Lemma front_ends_differ :
  audioCodec wav <> Http.audioCodec (format_name wav)
  /\ resize_outputFilename (N := Posix.node "/videos") "/videos/clip.avi" R360p
     <> Http.job_outputFilename
          (Http.make_job (N := Posix.node "/srv") "/srv/output"
             "/srv/uploads/clip.avi"
             (path_parse_name (NodeLib := Posix.node "/srv") "clip.avi")
             (JStr (resolution_name R360p))).
Proof. split; vm_compute; discriminate. Qed.

Example codec_and_name_values :
  audioCodec wav = "pcm_s16le"
  /\ Http.audioCodec (format_name wav) = "wav"
  /\ resize_outputFilename (N := Posix.node "/videos") "/videos/clip.avi" R360p
     = "clip_360p.avi"
  /\ Http.job_outputFilename
       (Http.make_job (N := Posix.node "/srv") "/srv/output"
          "/srv/uploads/clip.avi"
          (path_parse_name (NodeLib := Posix.node "/srv") "clip.avi")
          (JStr (resolution_name R360p)))
     = "clip_360p.mp4".
Proof. repeat split; vm_compute; reflexivity. Qed.

(** ** C10: the resolutions the HTTP endpoint accepts *)

Lemma valid_names (items : list JSON) :
  map Http.template (filter Http.is_valid items)
  = filter (includes spec_resolutions) (names_of items).
Proof.
  induction items as [|j items IH]; [reflexivity|].
  destruct j as [| | |s| |]; cbn [filter Http.is_valid names_of flat_map app];
    try exact IH.
  change (includes (Http.keys Http.RESOLUTIONS) s)
    with (includes spec_resolutions s).
  cbn [filter]. destruct (includes spec_resolutions s); [|exact IH].
  cbn [map Http.template]. f_equal. exact IH.
Qed.

(** C10.  For an upload whose [resolutions] field is absent, or holds a
    JSON array, the HTTP resize endpoint starts a job for exactly those
    requested names that are among 360p, 480p, 720p and 1080p, in request
    order, all four when the field is absent; it answers 400 with the list
    of valid options exactly when none of the requested names is valid. *)
Theorem http_resize_filters_resolutions {N : NodeLib} (outputDir : string)
  (req : Http.Request) (f : Http.File) (items : list JSON) :
  Http.file req = Some f ->
  (Http.body_resolutions req = None /\ items = map JStr spec_resolutions)
  \/ (exists s, Http.body_resolutions req = Some s /\ s <> ""
                /\ JSON_parse s = Fulfilled (JArr items)) ->
  let wanted := filter (includes spec_resolutions) (names_of items) in
  let no_valid :=
    Http.Responded
      {| Http.status := 400;
         Http.body := Http.ErrorOptions "No valid resolutions specified"
                                        spec_resolutions |} in
  (Http.body_resolutions req = None -> wanted = spec_resolutions)
  /\ (wanted = [] <-> Http.resizeVideo outputDir req = no_valid)
  /\ (wanted <> [] ->
      exists jobs,
        Http.resizeVideo outputDir req = Http.Processing jobs
        /\ map Http.job_resolution jobs = wanted).
Proof.
  intros F Q. cbv zeta.
  assert (R : Http.requested req = Fulfilled (JArr items)).
  { unfold Http.requested.
    destruct Q as [[-> ->]|(s & -> & D & P)]; [reflexivity|].
    cbn [truthy]. destruct (String.eqb_spec s "") as [->|_]; [easy|].
    exact P. }
  assert (V : Http.resizeVideo outputDir req
              = if Nat.eqb (length (filter Http.is_valid items)) 0 then
                  Http.Responded
                    {| Http.status := 400;
                       Http.body :=
                         Http.ErrorOptions "No valid resolutions specified"
                                           spec_resolutions |}
                else
                  Http.Processing
                    (map (Http.make_job outputDir (Http.file_path f)
                            (path_parse_name (Http.file_filename f)))
                         (filter Http.is_valid items))).
  { unfold Http.resizeVideo. rewrite F, R. reflexivity. }
  rewrite <- valid_names.
  split; [|split].
  - intros E. destruct Q as [[_ ->]|(s & E' & _)]; [reflexivity|congruence].
  - rewrite V. destruct (filter Http.is_valid items) as [|j js];
      cbn; split; try reflexivity; discriminate.
  - intros NE. rewrite V. destruct (filter Http.is_valid items) as [|j js];
      [easy|]. eexists. split; [reflexivity|].
    rewrite map_map. reflexivity.
Qed.

Lemma http_resize_filters_resolutions_witness :
  exists jobs,
    Http.resizeVideo (N := Posix.node "/srv") "/srv/output"
                     (upload (Some two_names))
    = Http.Processing jobs
    /\ map Http.job_resolution jobs = ["360p"].
Proof.
  apply (@http_resize_filters_resolutions (Posix.node "/srv")
           "/srv/output" (upload (Some two_names))
           {| Http.file_path := "/srv/uploads/17-42.avi";
              Http.file_filename := "17-42.avi" |}
           [JStr "360p"; JStr "4k"]).
  - reflexivity.
  - right. exists two_names. split; [reflexivity|].
    split; [vm_compute; discriminate|vm_compute; reflexivity].
  - vm_compute. discriminate.
Defined.

(** ** C7: the jobs of the HTTP resize endpoint *)

Module Jobs.
Import Http.

Lemma set_state_fst (i : nat) (st : JobState) (js : list (Job * JobState)) :
  map fst (set_state i st js) = map fst js.
Proof.
  revert i. induction js as [|[j s] js IH]; intros [|i]; cbn;
    try reflexivity. now rewrite IH.
Qed.

Lemma ended_after_end (i : nat) (j : Job) (js : list (Job * JobState)) :
  nth_error js i = Some (j, Running) ->
  length (filter is_ended (set_state i Ended js))
  = S (length (filter is_ended js)).
Proof.
  revert i. induction js as [|[j' s] js IH]; intros [|i] E; cbn in E;
    try discriminate.
  - injection E as -> ->. reflexivity.
  - cbn [set_state filter]. destruct (is_ended (j', s)); cbn [length];
      now rewrite (@IH i E).
Qed.

Lemma ended_after_error (i : nat) (j : Job) (js : list (Job * JobState)) :
  nth_error js i = Some (j, Running) ->
  filter is_ended (set_state i Failed js) = filter is_ended js.
Proof.
  revert i. induction js as [|[j' s] js IH]; intros [|i] E; cbn in E;
    try discriminate.
  - injection E as -> ->. reflexivity.
  - cbn [set_state filter]. now rewrite (@IH i E).
Qed.

Lemma failed_after_end (i : nat) (j : Job) (js : list (Job * JobState)) :
  nth_error js i = Some (j, Running) ->
  existsb is_failed (set_state i Ended js) = existsb is_failed js.
Proof.
  revert i. induction js as [|[j' s] js IH]; intros [|i] E; cbn in E;
    try discriminate.
  - injection E as -> ->. reflexivity.
  - cbn [set_state existsb]. now rewrite (@IH i E).
Qed.

Lemma failed_after_error (i : nat) (j : Job) (js : list (Job * JobState)) :
  nth_error js i = Some (j, Running) ->
  existsb is_failed (set_state i Failed js) = true.
Proof.
  revert i. induction js as [|[j' s] js IH]; intros [|i] E; cbn in E;
    try discriminate.
  - reflexivity.
  - cbn [set_state existsb]. rewrite (@IH i E). apply orb_true_r.
Qed.

Lemma running_not_all_ended (i : nat) (j : Job) (js : list (Job * JobState)) :
  nth_error js i = Some (j, Running) -> forallb is_ended js = false.
Proof.
  intros E. destruct (forallb is_ended js) eqn:A; [|reflexivity].
  rewrite forallb_forall in A. apply nth_error_In in E.
  now apply A in E.
Qed.


Lemma all_ended_filter (js : list (Job * JobState)) :
  forallb is_ended js = true -> filter is_ended js = js.
Proof.
  induction js as [|x js IH]; [reflexivity|]. cbn.
  intros A. apply andb_prop in A as [-> A]. now rewrite IH.
Qed.

Lemma Inv_start (js : list Job) : Inv js (start js).
Proof.
  unfold start. constructor; cbn.
  - rewrite map_map. cbn. apply map_id.
  - induction js; [reflexivity|assumption].
  - intros _. split.
    + induction js; [reflexivity|assumption].
    + destruct js; [easy|reflexivity].
  - discriminate.
  - discriminate.
Qed.

Lemma Inv_deliver (js : list Job) (c : Completion) (p p' : Proc) :
  Inv js p -> deliver c p = Some p' -> Inv js p'.
Proof.
  intros [I1 I2 I3 I4 I5] D. destruct c as [i|i message]; cbn in D;
    destruct (nth_error (jobs p) i) as [[j [| |]]|] eqn:E;
    try discriminate; injection D as <-.
  - pose proof (@running_not_all_ended _ _ _ E) as NA.
    constructor; cbn.
    + now rewrite set_state_fst.
    + rewrite length_app, (@ended_after_end _ _ _ E), I2. cbn. lia.
    + destruct (response p) as [r|] eqn:Q; [discriminate|].
      destruct (forallb is_ended (set_state i Ended (jobs p))) eqn:A;
        [discriminate|].
      intros _. rewrite (@failed_after_end _ _ _ E).
      split; [now apply I3|reflexivity].
    + intros r. destruct (response p) as [r0|] eqn:Q.
      * intros [= ->] S. destruct (I4 r eq_refl S) as [A _]. congruence.
      * destruct (forallb is_ended (set_state i Ended (jobs p))) eqn:A;
          [|discriminate].
        intros [= <-] _. split; reflexivity.
    + intros r. destruct (response p) as [r0|] eqn:Q.
      * intros [= ->] S. rewrite (@failed_after_end _ _ _ E). now apply (I5 r eq_refl).
      * destruct (forallb is_ended (set_state i Ended (jobs p)));
          [|discriminate].
        intros [= <-]. cbn. congruence.
  - pose proof (@running_not_all_ended _ _ _ E) as NA.
    constructor; cbn.
    + now rewrite set_state_fst.
    + now rewrite (@ended_after_error _ _ _ E).
    + destruct (response p); discriminate.
    + intros r. destruct (response p) as [r0|] eqn:Q.
      * intros [= ->] S. destruct (I4 r eq_refl S) as [A _]. congruence.
      * intros [= <-]. cbn. discriminate.
    + intros r _ _. now apply (@failed_after_error _ _ _ E).
Qed.

Lemma Inv_run (js : list Job) (schedule : list Completion) :
  forall p p', Inv js p -> run schedule p = Some p' -> Inv js p'.
Proof.
  induction schedule as [|c cs IH]; intros p p' I R; cbn in R.
  - now injection R as <-.
  - destruct (deliver c p) as [q|] eqn:D; [|discriminate].
    apply (IH q p'); [|exact R]. now apply (@Inv_deliver js c p q I D).
Qed.

End Jobs.

Lemma response_kept (more : list Http.Completion) :
  forall p p' r,
    Http.response p = Some r -> Http.run more p = Some p' ->
    Http.response p' = Some r.
Proof.
  induction more as [|c more IH]; intros p p' r Q R; cbn in R.
  - now injection R as <-.
  - destruct (Http.deliver c p) as [q|] eqn:D; [|discriminate].
    apply (IH q p' r); [|exact R].
    destruct c as [i|i m]; cbn in D;
      destruct (nth_error (Http.jobs p) i) as [[j [| |]]|];
      try discriminate; injection D as <-; cbn; now rewrite Q.
Qed.

Lemma run_app (a b : list Http.Completion) (p : Http.Proc) :
  Http.run (a ++ b) p
  = match Http.run a p with
    | Some q => Http.run b q
    | None => None
    end.
Proof.
  revert p. induction a as [|c a IH]; intros p; cbn; [reflexivity|].
  destruct (Http.deliver c p); [apply IH|reflexivity].
Qed.

Lemma files_grow (js : list Http.Job) (schedule : list Http.Completion) :
  forall p p',
    map fst (Http.jobs p) = js ->
    Http.run schedule p = Some p' ->
    Http.outputFiles p'
    = (Http.outputFiles p ++ files_of js (ended_in schedule))%list.
Proof.
  induction schedule as [|c cs IH]; intros p p' J R; cbn in R.
  - injection R as <-. cbn. now rewrite app_nil_r.
  - destruct (Http.deliver c p) as [q|] eqn:D; [|discriminate].
    assert (Jq : map fst (Http.jobs q) = js).
    { destruct c as [i|i m]; cbn in D;
        destruct (nth_error (Http.jobs p) i) as [[j [| |]]|];
        try discriminate; injection D as <-; cbn;
        now rewrite Jobs.set_state_fst. }
    rewrite (IH q p' Jq R).
    destruct c as [i|i m]; cbn in D;
      destruct (nth_error (Http.jobs p) i) as [[j [| |]]|] eqn:E;
      try discriminate; injection D as <-; cbn [Http.outputFiles].
    + apply (map_nth_error fst) in E. rewrite J in E. cbn [fst] in E.
      unfold files_of, ended_in. cbn [flat_map app]. rewrite E.
      cbn [app]. now rewrite <- app_assoc.
    + reflexivity.
Qed.

Lemma first_error_split (schedule : list Http.Completion) (m : string) :
  first_error schedule = Some m ->
  exists pre i post,
    schedule = (pre ++ Http.OnError i m :: post)%list
    /\ first_error pre = None.
Proof.
  induction schedule as [|c cs IH]; [discriminate|].
  destruct c as [i|i m']; cbn.
  - intros E. destruct (IH E) as (pre & j & post & -> & P).
    now exists (Http.OnEnd i :: pre), j, post.
  - intros [= ->]. now exists [], i, cs.
Qed.

Lemma no_error_no_failed (schedule : list Http.Completion) :
  forall p q,
    Http.run schedule p = Some q ->
    first_error schedule = None ->
    existsb is_failed (Http.jobs p) = false ->
    existsb is_failed (Http.jobs q) = false.
Proof.
  induction schedule as [|c cs IH]; intros p q R F Z; cbn in R.
  - now injection R as <-.
  - destruct c as [i|i m]; [|discriminate]. cbn in R, F.
    destruct (nth_error (Http.jobs p) i) as [[j [| |]]|] eqn:E;
      try discriminate.
    apply (IH _ q R F). cbn. now rewrite (@Jobs.failed_after_end _ _ _ E).
Qed.

Lemma first_error_answer (js : list Http.Job)
  (schedule : list Http.Completion) (p : Http.Proc) (m : string) :
  Http.run schedule (Http.start js) = Some p ->
  first_error schedule = Some m ->
  Http.response p
  = Some {| Http.status := 500;
            Http.body := Http.ErrorBody
                           (if String.eqb m "" then "Error processing video"
                            else m) |}.
Proof.
  intros R F. destruct (first_error_split _ F) as (pre & i & post & -> & P).
  rewrite run_app in R.
  destruct (Http.run pre (Http.start js)) as [q|] eqn:Rq; [|discriminate].
  cbn [Http.run] in R.
  destruct (Http.deliver (Http.OnError i m) q) as [q'|] eqn:D;
    [|discriminate].
  apply (response_kept post q'); [|exact R].
  pose proof (Jobs.Inv_run pre (Jobs.Inv_start js) Rq) as [_ _ _ I4 I5].
  assert (Z : existsb is_failed (Http.jobs q) = false).
  { apply (no_error_no_failed pre (Http.start js) Rq P).
    now apply (inv_pending (Jobs.Inv_start js)). }
  cbn in D.
  destruct (nth_error (Http.jobs q) i) as [[j [| |]]|] eqn:E;
    try discriminate. injection D as <-. cbn.
  destruct (Http.response q) as [r|] eqn:Q; [|reflexivity].
  exfalso. destruct (Nat.eq_dec (Http.status r) 200) as [S|S].
  - destruct (I4 r eq_refl S) as [A _].
    rewrite (@Jobs.running_not_all_ended _ _ _ E) in A. discriminate.
  - rewrite (I5 r eq_refl S) in Z. discriminate.
Qed.











(** With two jobs, the failure of one is answered with 500 at once, while
    the other job is still running. *)
Example http_resize_failure_does_not_wait :
  let js := map (Http.make_job (N := Posix.node "/srv") "/srv/output"
                   "/srv/uploads/17-42.avi" "17-42")
                [JStr "360p"; JStr "720p"] in
  match Http.run [Http.OnError 0 "ffmpeg exited with code 1"] (Http.start js) with
  | Some p =>
      Http.response p
      = Some {| Http.status := 500;
                Http.body := Http.ErrorBody "ffmpeg exited with code 1" |}
      /\ map snd (Http.jobs p) = [Http.Failed; Http.Running]
  | None => False
  end.
Proof. vm_compute. split; reflexivity. Qed.

(** * Further properties of the code *)

(** ** The regular expressions *)

Lemma strip_prefix_app (p s : string) : strip_prefix p (p ++ s) = Some s.
Proof.
  induction p as [|a p IH]; cbn; [reflexivity|].
  now rewrite Ascii.eqb_refl.
Qed.

Lemma strip_prefix_sound (p s rest : string) :
  strip_prefix p s = Some rest -> s = p ++ rest.
Proof.
  revert s. induction p as [|a p IH]; intros s E; cbn in E.
  - now injection E as ->.
  - destruct s as [|b s]; [discriminate|].
    destruct (Ascii.eqb_spec a b) as [->|_]; [|discriminate].
    cbn. f_equal. now apply IH.
Qed.

Lemma take_while_app (f : ascii -> bool) (group rest : string) :
  forallb f (list_ascii_of_string group) = true ->
  match rest with
  | EmptyString => True
  | String c _ => f c = false
  end ->
  take_while f (group ++ rest) = group.
Proof.
  induction group as [|c g IH]; cbn; intros A B.
  - destruct rest as [|c r]; [reflexivity|]. cbn. now rewrite B.
  - apply andb_prop in A as [-> A]. f_equal. now apply IH.
Qed.



Lemma capture_here_sound (literal : string) (group : string -> string)
  (s found : string) :
  capture_here literal group s = Some found ->
  exists tail, s = literal ++ tail /\ found = group tail /\ found <> "".
Proof.
  unfold capture_here.
  destruct (strip_prefix literal s) as [r|] eqn:P; [|discriminate].
  destruct (group r) as [|a g] eqn:G; [discriminate|].
  intros [= <-]. exists r. rewrite G.
  split; [now apply strip_prefix_sound|]. split; [reflexivity|discriminate].
Qed.

(** A capture is what the group takes after an occurrence of the
    literal, and it is not empty. *)
Lemma regex_capture_sound (literal : string) (group : string -> string)
  (s found : string) :
  regex_capture literal group s = Some found ->
  exists pre tail,
    s = pre ++ literal ++ tail /\ found = group tail /\ found <> "".
Proof.
  induction s as [|c s IH]; cbn [regex_capture].
  - destruct (capture_here literal group "") as [g|] eqn:C; [|discriminate].
    intros [= <-]. apply capture_here_sound in C as (tail & E & G & NE).
    now exists "", tail.
  - destruct (capture_here literal group (String c s)) as [g|] eqn:C.
    + intros [= <-]. apply capture_here_sound in C as (tail & E & G & NE).
      now exists "", tail.
    + intros E. destruct (IH E) as (pre & tail & -> & G & NE).
      now exists (String c pre), tail.
Qed.

(** At an occurrence at the very start the capture is what the group
    takes there. *)
Lemma regex_capture_at_start (literal : string) (group : string -> string)
  (found rest : string) :
  found <> "" ->
  group (found ++ rest) = found ->
  regex_capture literal group (literal ++ found ++ rest) = Some found.
Proof.
  intros NE G.
  assert (C : capture_here literal group (literal ++ found ++ rest)
              = Some found).
  { unfold capture_here. rewrite strip_prefix_app, G.
    destruct found; [easy|reflexivity]. }
  destruct (literal ++ found ++ rest); cbn [regex_capture]; now rewrite C.
Qed.

(** What stands before the first occurrence of the literal plays no part. *)
Lemma regex_capture_first (literal : string) (group : string -> string)
  (pre tail : string) :
  (forall p q, pre ++ tail = p ++ literal ++ q ->
               String.length pre <= String.length p) ->
  regex_capture literal group (pre ++ tail)
  = regex_capture literal group tail.
Proof.
  induction pre as [|c pre IH]; intros F; [reflexivity|].
  cbn [append regex_capture].
  assert (C : capture_here literal group (String c (pre ++ tail)) = None).
  { unfold capture_here.
    destruct (strip_prefix literal (String c (pre ++ tail))) as [r|] eqn:P;
      [|reflexivity].
    apply strip_prefix_sound in P. apply (F "" r) in P. cbn in P. lia. }
  rewrite C. apply IH. intros p q E.
  pose proof (F (String c p) q) as F'. cbn in F'. rewrite E in F'.
  specialize (F' eq_refl). lia.
Qed.


(** ** get-ffmpeg-version *)

(** X1.  get-ffmpeg-version runs [ffmpeg -version] and nothing else: no
    check of the file system and no question to the user.  It returns an
    error result exactly when the command fails, then with the message of
    the failure and the hint to install FFmpeg. *)
Theorem version_tool_is_not_gated {W : Type} (H : Host W) (w : W) :
  let run := get_ffmpeg_version H w in
  trace_of run = [EvExec "ffmpeg -version"]
  /\ match fst (execAsync H "ffmpeg -version" w) with
     | Fulfilled out =>
         exists version,
           result_of run
           = Return {| isError := false;
                       text := "FFmpeg Version: " ++ version ++ nl ++ nl
                                 ++ "Full version info:" ++ nl ++ stdout out |}
     | Rejected e =>
         result_of run
         = Return {| isError := true;
                     text := "Error getting FFmpeg version: " ++ e ++ nl ++ nl
                               ++ "Make sure FFmpeg is installed and in your PATH." |}
     end.
Proof.
  cbv zeta. unfold get_ffmpeg_version, try_catch, bind, exec, await, return_.
  destruct (execAsync H "ffmpeg -version" w) as [[out|e] w1]; cbn.
  - split; [reflexivity|]. now exists (version_of (stdout out)).
  - split; reflexivity.
Qed.



(** A banner followed by white space is passed over, and a no-break space
    (U+00A0) ends a word as a space does. *)
Example version_of_values :
  version_of ("ffmpeg version  " ++ nl ++ "ffmpeg version n7.0-full") = "n7.0-full"
  /\ version_of ("ffmpeg version 6.0" ++ bytes [194; 160] ++ "static") = "6.0"
  /\ version_of ("ffmpeg version " ++ nl) = "Unknown".
Proof. vm_compute. repeat split. Qed.

(** ** The gated tools *)

Lemma passing_quiet (pre : list Event) :
  forallb passing pre = true ->
  filter is_ask pre = [] /\ filter is_notify pre = [].
Proof.
  induction pre as [|e pre IH]; [now split|].
  cbn [forallb]. intros P. apply andb_prop in P as [Pe P].
  destruct (IH P) as [A B].
  destruct e as [? []|? []|? ?|?|?|?|?]; try discriminate; cbn; now split.
Qed.

Lemma exec_quiet (commands : list string) :
  filter is_ask (map EvExec commands) = []
  /\ filter is_notify (map EvExec commands) = [].
Proof. induction commands; [now split|exact IHcommands]. Qed.

(** X3.  No exception escapes a tool, whatever the file system, the
    notifier and the commands do: what is thrown inside a handler is caught
    there, and a handler never runs off its end without a result.  A call
    of a gated tool or of get-ffmpeg-version that settles returns a tool
    result. *)
Theorem no_exception_escapes {W : Type} (H : Host W) {N : NodeLib}
  (c : Call) (w : W) :
  (forall e, result_of (handle H c w) <> Throw e)
  /\ (forall v, result_of (handle H c w) <> Val v)
  /\ (forall e, result_of (get_ffmpeg_version H w) <> Throw e)
  /\ (forall v, result_of (get_ffmpeg_version H w) <> Val v).
Proof.
  split; [|split; [|split]].
  - intros e. destruct (handle_Run H c w); discriminate.
  - intros v. destruct (handle_Run H c w); discriminate.
  - intros e. unfold get_ffmpeg_version, try_catch, bind, exec, await, return_.
    destruct (execAsync H "ffmpeg -version" w) as [[out|e'] w1]; discriminate.
  - intros v. unfold get_ffmpeg_version, try_catch, bind, exec, await, return_.
    destruct (execAsync H "ffmpeg -version" w) as [[out|e'] w1]; discriminate.
Qed.

(** X4.  A call of a gated tool asks at most once and shows at most one
    dialog; a dialog is only shown after [askPermission] was called. *)
Theorem asks_at_most_once {W : Type} (H : Host W) {N : NodeLib}
  (c : Call) (w : W) :
  let t := trace_of (handle H c w) in
  length (filter is_ask t) <= 1
  /\ length (filter is_notify t) <= length (filter is_ask t).
Proof.
  cbv zeta. destruct (handle_Run H c w) as
    [pre e r P F|pre a P|pre a P|pre a shown cs r P S];
    destruct (passing_quiet _ P) as [A B].
  - rewrite !filter_app, A, B.
    destruct e as [? []|? []|? ?|?|?|?|?]; try discriminate; cbn; lia.
  - rewrite !filter_app, A, B. cbn. lia.
  - rewrite !filter_app, A, B. cbn. lia.
  - destruct (exec_quiet cs) as [C D].
    rewrite !filter_app, A, B. cbn [filter is_ask is_notify app].
    rewrite !filter_app. cbn [filter is_ask is_notify app].
    rewrite C, D. destruct S as [-> | ->]; cbn; lia.
Qed.

Lemma outputDirectory_of_given {W : Type} (H : Host W) {N : NodeLib}
  (d : string) (w : W) :
  d <> "" ->
  outputDirectory_of H (Some d) w = (Val (path_resolve d), w, []).
Proof.
  intros NE. unfold outputDirectory_of. cbn [truthy].
  destruct (String.eqb_spec d "") as [->|_]; [easy|reflexivity].
Qed.

Lemma keeps_to_exec (d : string) (commands : list string) :
  forallb (keeps_to d) (map EvExec commands) = true.
Proof. induction commands; [reflexivity|exact IHcommands]. Qed.

Ltac kept :=
  unfold trace_of; cbn [snd app forallb keeps_to andb];
  rewrite ?String.eqb_refl, ?keeps_to_exec; cbn [andb]; try reflexivity.

(** X5.  With a non-empty [outputDir], resize-video and extract-audio
    never create a directory and check no other directory than the
    resolved [outputDir]; an empty [outputDir] is treated as an absent
    one. *)
Theorem outputDir_is_used_as_given {W : Type} (H : Host W) {N : NodeLib}
  (videoPath : string) (resolutions : list Resolution) (format : Format)
  (given : string) (w : W) :
  (given <> "" ->
   forallb (keeps_to (path_resolve given))
           (trace_of (resize_video H videoPath resolutions (Some given) w)) = true
   /\ forallb (keeps_to (path_resolve given))
              (trace_of (extract_audio H videoPath format (Some given) w)) = true)
  /\ resize_video H videoPath resolutions (Some "") w
     = resize_video H videoPath resolutions None w
  /\ extract_audio H videoPath format (Some "") w
     = extract_audio H videoPath format None w.
Proof.
  split; [|split; reflexivity].
  intros NE. split.
  - pose proof (resize_video_run H videoPath resolutions (Some given) w) as R.
    walk H R (path_resolve videoPath) (Some given) w;
      try (rewrite (@outputDirectory_of_given _ H _ given w1 NE) in Edir;
           injection Edir as <- <- <-);
      try (destruct b);
      try (destruct R as (results & w5 & -> & _));
      try rewrite R; kept.
  - pose proof (extract_audio_run H videoPath format (Some given) w) as R.
    walk H R (path_resolve videoPath) (Some given) w;
      try (rewrite (@outputDirectory_of_given _ H _ given w1 NE) in Edir;
           injection Edir as <- <- <-);
      try (destruct b);
      rewrite R; kept.
Qed.

Lemma outputDir_is_used_as_given_witness :
  forallb (keeps_to "/out")
          (trace_of (extract_audio (machine (asking (Some allow)))
                       (N := Posix.node "/videos") "clip.avi" mp3
                       (Some "/out") ["/out"])) = true.
Proof.
  apply (proj1 (outputDir_is_used_as_given (machine (asking (Some allow)))
                  (N := Posix.node "/videos") "clip.avi" [R360p] mp3
                  "/out" ["/out"])).
  discriminate.
Defined.

(** X6.  On a host where the input is accessible, the output directory
    is writable and the gate resolves [true], extract-audio reports the
    outcome of its one command: when the command is rejected the result is
    an error that carries the message of the rejection, and when it is
    fulfilled the result names the output file, [<stem>.<format>] in the
    output directory. *)
Theorem extract_audio_reports_the_outcome {W : Type} (H : Host W)
  {N : NodeLib} (videoPath : string) (format : Format)
  (outputDir : option string) (w w1 w2 w3 w4 : W) (d : string)
  (tdir : list Event) :
  let a := path_resolve videoPath in
  let run := extract_audio H videoPath format outputDir w in
  let output :=
    path_join d (path_basename_ext a (path_extname a)
                   ++ "." ++ format_name format) in
  let command := extract_command a output format in
  fs_access H a w = (Fulfilled tt, w1) ->
  outputDirectory_of H outputDir w1 = (Val d, w2, tdir) ->
  fs_access_W_OK H d w2 = (Fulfilled tt, w3) ->
  gate_grants H (extract_message a format) w3 w4 ->
  (forall e w5,
      execAsync H command w4 = (Rejected e, w5) ->
      result_of run
      = Return {| isError := true; text := "Error extracting audio: " ++ e |})
  /\ (forall out w5,
         execAsync H command w4 = (Fulfilled out, w5) ->
         result_of run
         = Return {| isError := false;
                     text := "Successfully extracted audio to: " ++ output |}).
Proof.
  cbv zeta. intros A D Wr G.
  destruct (@extract_audio_granted W H N videoPath format outputDir
              w w1 w2 w3 w4 d tdir A D Wr G) as (tg & _ & _ & E).
  unfold extract_outputPath in E.
  split; intros o w5 X; rewrite E; unfold result_of; cbn [fst];
    rewrite X; reflexivity.
Qed.

Lemma extract_audio_reports_the_outcome_witness :
  result_of (extract_audio rejecting_input (N := Posix.node "/videos")
               "clip.avi" ogg None tt)
  = Return
      {| isError := true;
         text := "Error extracting audio: Command failed: ffmpeg -i "
                   ++ dq ++ "/videos/clip.avi" ++ dq
                   ++ " -vn -acodec libvorbis "
                   ++ dq ++ "/tmp/ffmpeg-output/clip.ogg" ++ dq ++ nl
                   ++ "/videos/clip.avi: Invalid data found when processing input"
                   ++ nl |}
  /\ result_of (extract_audio (printing "") (N := Posix.node "/videos")
                  "clip.avi" ogg None tt)
     = Return
         {| isError := false;
            text := "Successfully extracted audio to: /tmp/ffmpeg-output/clip.ogg" |}.
Proof.
  split.
  - apply (proj1 (@extract_audio_reports_the_outcome unit rejecting_input
                    (Posix.node "/videos") "clip.avi" ogg None
                    tt tt tt tt tt "/tmp/ffmpeg-output"
                    [EvMkdir "/tmp/ffmpeg-output" true]
                    eq_refl eq_refl eq_refl
                    (or_introl (conj eq_refl eq_refl)))
             _ tt).
    reflexivity.
  - apply (proj2 (@extract_audio_reports_the_outcome unit (printing "")
                    (Posix.node "/videos") "clip.avi" ogg None
                    tt tt tt tt tt "/tmp/ffmpeg-output"
                    [EvMkdir "/tmp/ffmpeg-output" true]
                    eq_refl eq_refl eq_refl
                    (or_introl (conj eq_refl eq_refl)))
             {| stdout := ""; stderr := "" |} tt).
    reflexivity.
Defined.

Lemma askPermission_lenient {W : Type} (H : Host W) (action : string)
  (w : W) :
  (forall message w0,
      exists cb w1,
        notifier_notify H message w0 = (Some cb, w1)
        /\ cb_err cb = None /\ buttonPressed cb <> Some "Deny") ->
  exists w1 tg, askPermission H action w = (Val true, w1, tg)
                /\ existsb is_granted tg = true.
Proof.
  intros L.
  assert (D : {env H "DISABLE_NOTIFICATIONS" = Some "true"}
               + {env H "DISABLE_NOTIFICATIONS" <> Some "true"}).
  { destruct (env H "DISABLE_NOTIFICATIONS") as [s|]; [|right; congruence].
    destruct (string_dec s "true") as [->|D]; [now left|right; congruence]. }
  destruct D as [E|E].
  - rewrite (askPermission_disabled H action w E). now eexists _, _.
  - rewrite (askPermission_enabled H action w E).
    destruct (L action w) as (cb & w1 & -> & -> & B). cbv zeta.
    assert (Z : is_Deny (buttonPressed cb) = false).
    { unfold is_Deny. destruct (buttonPressed cb) as [s|]; [|reflexivity].
      destruct (String.eqb_spec s "Deny") as [->|_]; [easy|reflexivity]. }
    rewrite Z. now eexists _, _.
Qed.

(** X7.  Only an error of the notifier or the button [Deny] stops a gated
    tool: when every dialog is answered without error and with any other
    button value (a timeout, a dismissal, [Allow]), every call whose input
    checks pass is granted. *)
Theorem anything_but_deny_is_approval {W : Type} (H : Host W) {N : NodeLib}
  (c : Call) (w : W) :
  (forall message w0,
      exists cb w1,
        notifier_notify H message w0 = (Some cb, w1)
        /\ cb_err cb = None /\ buttonPressed cb <> Some "Deny") ->
  let t := trace_of (handle H c w) in
  existsb failed_check t = false -> existsb is_granted t = true.
Proof.
  intros L. cbv zeta. destruct c as [v rs o|v f o|v]; unfold handle.
  - pose proof (resize_video_run H v rs o w) as R.
    walk H R (path_resolve v) o w;
      try (destruct (askPermission_lenient H (resize_message (path_resolve v) rs) w3 L)
             as (u & tg & A' & _); rewrite A' in A; try discriminate A);
      try (injection A as <- _);
      try (destruct T as [->|[ok ->]]);
      try (destruct R as (results & w5 & -> & _));
      try rewrite R; intros F; grants; try reflexivity; exfalso;
      unfold trace_of in F; cbn [snd app existsb failed_check orb] in F;
      discriminate F.
  - pose proof (extract_audio_run H v f o w) as R.
    walk H R (path_resolve v) o w;
      try (destruct (askPermission_lenient H (extract_message (path_resolve v) f) w3 L)
             as (u & tg & A' & _); rewrite A' in A; try discriminate A);
      try (injection A as <- _);
      try (destruct T as [->|[ok ->]]);
      rewrite R; intros F; grants; try reflexivity; exfalso;
      unfold trace_of in F; cbn [snd app existsb failed_check orb] in F;
      discriminate F.
  - pose proof (get_video_info_run H v w) as R. cbv zeta in R.
    destruct (fs_access H (path_resolve v) w) as [[[]|e] w1].
    + destruct (askPermission_lenient H (info_message (path_resolve v)) w1 L)
        as (u & tg & A & G).
      rewrite A in R. destruct R as (r & ->). intros _.
      unfold trace_of; cbn [snd existsb is_granted orb].
      rewrite existsb_app, G. reflexivity.
    + rewrite R. discriminate.
Qed.

Lemma anything_but_deny_is_approval_witness :
  existsb is_granted
    (trace_of (handle (machine (asking (Some timed_out)))
                 (N := Posix.node "/videos") (CallInfo "clip.avi") []))
  = true.
Proof.
  apply (anything_but_deny_is_approval (machine (asking (Some timed_out)))
           (N := Posix.node "/videos") (CallInfo "clip.avi") []).
  - intros message w0. exists timed_out, w0.
    split; [reflexivity|]. split; [reflexivity|]. vm_compute. discriminate.
  - vm_compute. reflexivity.
Defined.

Lemma probes_only_exec (a : string) :
  forallb (probes_only a) (map EvExec [probe_command a]) = true.
Proof. cbn. now rewrite String.eqb_refl. Qed.

(** X8.  get-video-info touches nothing but its input: it checks the
    resolved input path, creates and checks no directory, and the only
    command it may run is [ffprobe] on that path.  On a host where the
    input is accessible and the gate resolves [true], a rejection of
    [ffprobe], like an output that cannot be parsed, is returned as an
    error result that carries the message of the failure; otherwise the
    result is the description of the streams. *)
Theorem video_info_only_probes {W : Type} (H : Host W) {N : NodeLib}
  (videoPath : string) (w : W) :
  let a := path_resolve videoPath in
  let run := get_video_info H videoPath w in
  forallb (probes_only a) (trace_of run) = true
  /\ length (exec_commands (trace_of run)) <= 1
  /\ (forall w1 w2,
         fs_access H a w = (Fulfilled tt, w1) ->
         gate_grants H (info_message a) w1 w2 ->
         result_of run
         = Return
             match fst (execAsync H (probe_command a) w2) with
             | Fulfilled out =>
                 match describe_streams (path_basename a) (stdout out) with
                 | Fulfilled formattedInfo =>
                     {| isError := false; text := formattedInfo |}
                 | Rejected e =>
                     {| isError := true;
                        text := "Error getting video information: " ++ e |}
                 end
             | Rejected e =>
                 {| isError := true;
                    text := "Error getting video information: " ++ e |}
             end).
Proof.
  cbv zeta.
  assert (K : forallb (probes_only (path_resolve videoPath))
                      (trace_of (get_video_info H videoPath w)) = true
              /\ length (exec_commands
                           (trace_of (get_video_info H videoPath w))) <= 1).
  { unfold get_video_info.
    unfold check_input, access, exec, await, try_catch, bind, return_.
    cbv beta iota zeta.
    destruct (fs_access H (path_resolve videoPath) w) as [[[]|e] w1];
      cbv beta iota zeta.
    2:{ unfold trace_of; cbn. rewrite String.eqb_refl. split; [reflexivity|lia]. }
    fold (info_message (path_resolve videoPath)).
    destruct (askPermission_cases H (info_message (path_resolve videoPath)) w1)
      as [A|[(w2 & A)|([|] & w2 & A)]]; rewrite A; cbv beta iota zeta;
      cbn [negb];
      try (unfold trace_of; cbn; rewrite String.eqb_refl;
           split; [reflexivity|lia]).
    all: destruct (execAsync H (probe_command (path_resolve videoPath)) _)
           as [[out|e] w3] eqn:X; cbv beta iota zeta.
    all: try destruct (describe_streams _ _) as [info|e] eqn:D;
           cbv beta iota zeta.
    all: unfold trace_of; cbn; rewrite !String.eqb_refl.
    all: split; [reflexivity|lia]. }
  destruct K as [K1 K2]. split; [exact K1|]. split; [exact K2|].
  intros w1 w2 A G.
  destruct (@get_video_info_granted W H N videoPath w w1 w2 A G)
    as (tg & _ & _ & E).
  rewrite E. unfold result_of. cbn [fst].
  destruct (fst (execAsync H (probe_command (path_resolve videoPath)) w2))
    as [out|e]; [|reflexivity].
  destruct (describe_streams _ _); reflexivity.
Qed.

Lemma video_info_only_probes_witness :
  result_of (get_video_info rejecting_input (N := Posix.node "/videos")
               "clip.avi" tt)
  = Return
      {| isError := true;
         text := "Error getting video information: Command failed: "
                   ++ probe_command "/videos/clip.avi" ++ nl
                   ++ "/videos/clip.avi: Invalid data found when processing input"
                   ++ nl |}.
Proof.
  rewrite (proj2 (proj2 (video_info_only_probes rejecting_input
                           (N := Posix.node "/videos") "clip.avi" tt))
             tt tt eq_refl (or_introl (conj eq_refl eq_refl))).
  reflexivity.
Defined.

Lemma append_inv_head (a x y : string) : a ++ x = a ++ y -> x = y.
Proof.
  induction a as [|c a IH]; cbn; [easy|]. intros [= E]. now apply IH.
Qed.

(** X9.  Two different resolutions never get the same output file name,
    neither from the MCP tool nor from the HTTP endpoint. *)
Theorem output_names_are_distinct {N : NodeLib} (input filename : string)
  (r1 r2 : Resolution) :
  r1 <> r2 ->
  resize_outputFilename input r1 <> resize_outputFilename input r2
  /\ Http.resize_outputFilename filename (resolution_name r1)
     <> Http.resize_outputFilename filename (resolution_name r2).
Proof.
  intros NE. unfold resize_outputFilename, Http.resize_outputFilename.
  split; intros E; apply append_inv_head in E;
    destruct r1, r2; try (now apply NE); cbn in E; discriminate E.
Qed.

Lemma output_names_are_distinct_witness :
  resize_outputFilename (N := Posix.node "/videos") "/videos/clip.avi" R360p
  <> resize_outputFilename (N := Posix.node "/videos") "/videos/clip.avi" R720p.
Proof.
  apply (output_names_are_distinct (N := Posix.node "/videos")
           "/videos/clip.avi" "clip" (r1 := R360p) (r2 := R720p)).
  discriminate.
Defined.

(** ** The HTTP controller *)

(** X10.  The error paths of the HTTP resize endpoint: without an uploaded
    file it answers 400 whatever the fields; with a file, a [resolutions]
    field that is not JSON is answered 500 with the message of the parser,
    and one that is JSON but not an array is answered 500 as well; no job
    is started in either case. *)
Theorem http_resize_error_paths {N : NodeLib} (outputDir : string)
  (req : Http.Request) :
  (Http.file req = None ->
   Http.resizeVideo outputDir req
   = Http.Responded {| Http.status := 400;
                       Http.body := Http.ErrorBody "No video file uploaded" |})
  /\ (forall f s e,
         Http.file req = Some f ->
         Http.body_resolutions req = Some s -> s <> "" ->
         JSON_parse s = Rejected e ->
         Http.resizeVideo outputDir req
         = Http.Responded
             {| Http.status := 500;
                Http.body := Http.ErrorBody
                               (if String.eqb e "" then "Error processing video"
                                else e) |})
  /\ (forall f s v,
         Http.file req = Some f ->
         Http.body_resolutions req = Some s -> s <> "" ->
         JSON_parse s = Fulfilled v ->
         (forall items, v <> JArr items) ->
         exists message,
           Http.resizeVideo outputDir req
           = Http.Responded {| Http.status := 500;
                               Http.body := Http.ErrorBody message |}).
Proof.
  assert (T : forall s, s <> "" -> truthy (Some s) = true).
  { intros s NE. cbn. now destruct (String.eqb_spec s ""). }
  split; [|split].
  - intros F. unfold Http.resizeVideo. now rewrite F.
  - intros f s e F B NE P. unfold Http.resizeVideo, Http.requested.
    rewrite F, B, (T s NE), P. reflexivity.
  - intros f s v F B NE P NA. unfold Http.resizeVideo, Http.requested.
    rewrite F, B, (T s NE), P.
    destruct v as [| | | |items|]; cbn; try (eexists; reflexivity).
    now destruct (NA items).
Qed.

Lemma http_resize_error_paths_witness :
  Http.resizeVideo (N := node_with_null) "/srv/output" (upload (Some "360p"))
  = Http.Responded {| Http.status := 500;
                      Http.body := Http.ErrorBody "Unexpected token in JSON" |}
  /\ exists message,
       Http.resizeVideo (N := node_with_null) "/srv/output"
                        (upload (Some "null"))
       = Http.Responded {| Http.status := 500;
                           Http.body := Http.ErrorBody message |}.
Proof.
  split.
  - apply (proj1 (proj2 (http_resize_error_paths (N := node_with_null)
                           "/srv/output" (upload (Some "360p"))))
                 {| Http.file_path := "/srv/uploads/17-42.avi";
                    Http.file_filename := "17-42.avi" |} "360p"
                 "Unexpected token in JSON");
      [reflexivity|reflexivity|discriminate|reflexivity].
  - apply (proj2 (proj2 (http_resize_error_paths (N := node_with_null)
                           "/srv/output" (upload (Some "null"))))
                 {| Http.file_path := "/srv/uploads/17-42.avi";
                    Http.file_filename := "17-42.avi" |} "null" JNull);
      [reflexivity|reflexivity|discriminate|reflexivity|discriminate].
Defined.

(** X11.  The HTTP resize endpoint answers a request once: the response
    that was sent is not replaced by whatever callbacks come later. *)
Theorem http_resize_answers_once (js : list Http.Job)
  (schedule more : list Http.Completion) (p p' : Http.Proc)
  (r : Http.Response) :
  Http.run schedule (Http.start js) = Some p ->
  Http.response p = Some r ->
  Http.run more p = Some p' ->
  Http.response p' = Some r.
Proof. intros _ Q R. exact (response_kept more p Q R). Qed.

(** X12.  The files of a resize request are listed in the order in which
    the jobs ended, not in the order of the request: after any callbacks
    the list holds the output of each ended job, in the order of the
    ['end'] callbacks, and that list is what the 200 response carries. *)
Theorem http_files_in_completion_order (js : list Http.Job)
  (schedule : list Http.Completion) (p : Http.Proc) :
  Http.run schedule (Http.start js) = Some p ->
  Http.outputFiles p = files_of js (ended_in schedule)
  /\ (forall r,
         Http.response p = Some r -> Http.status r = 200 ->
         Http.body r
         = Http.FilesBody "Video processing completed"
                          (files_of js (ended_in schedule))).
Proof.
  intros R.
  pose proof (Jobs.Inv_run schedule (Jobs.Inv_start js) R) as [I1 _ _ I4 _].
  assert (F : Http.outputFiles p = files_of js (ended_in schedule)).
  { rewrite (files_grow schedule (Http.start js) (inv_jobs (Jobs.Inv_start js)) R).
    reflexivity. }
  split; [exact F|].
  intros r Q S. destruct (I4 r Q S) as [_ B]. now rewrite B, F.
Qed.

Lemma http_resize_answers_once_witness :
  let js := map (Http.make_job (N := Posix.node "/srv") "/srv/output"
                   "/srv/uploads/17-42.avi" "17-42")
                [JStr "360p"; JStr "720p"] in
  exists p p' r,
    Http.run [Http.OnError 0 "ffmpeg exited with code 1"] (Http.start js)
    = Some p
    /\ Http.run [Http.OnEnd 1] p = Some p'
    /\ Http.response p' = Some r /\ Http.status r = 500.
Proof.
  intros js. eexists _, _, _.
  split; [vm_compute; reflexivity|].
  split; [vm_compute; reflexivity|].
  split.
  - eapply (@http_resize_answers_once js
              [Http.OnError 0 "ffmpeg exited with code 1"] [Http.OnEnd 1]);
      vm_compute; reflexivity.
  - reflexivity.
Defined.

Lemma http_files_in_completion_order_witness :
  let js := map (Http.make_job (N := Posix.node "/srv") "/srv/output"
                   "/srv/uploads/17-42.avi" "17-42")
                [JStr "360p"; JStr "720p"] in
  exists p,
    Http.run [Http.OnEnd 1; Http.OnEnd 0] (Http.start js) = Some p
    /\ map Http.of_resolution (Http.outputFiles p) = ["720p"; "360p"].
Proof.
  intros js.
  pose proof (@http_files_in_completion_order js
                [Http.OnEnd 1; Http.OnEnd 0]) as T.
  destruct (Http.run [Http.OnEnd 1; Http.OnEnd 0] (Http.start js))
    as [p|] eqn:R; [|vm_compute in R; discriminate].
  exists p. split; [reflexivity|].
  rewrite (proj1 (T p eq_refl)). vm_compute. reflexivity.
Defined.

(** X13.  When a job of a resize request fails, the request is answered
    500 with the message of the first failure (or "Error processing video"
    when that message is empty), whatever the other jobs do before or
    after it. *)
Theorem http_first_error_is_the_answer (js : list Http.Job)
  (schedule : list Http.Completion) (p : Http.Proc) (m : string) :
  Http.run schedule (Http.start js) = Some p ->
  first_error schedule = Some m ->
  Http.response p
  = Some {| Http.status := 500;
            Http.body := Http.ErrorBody
                           (if String.eqb m "" then "Error processing video"
                            else m) |}.
Proof. exact (@first_error_answer js schedule p m). Qed.

Lemma http_first_error_is_the_answer_witness :
  let js := map (Http.make_job (N := Posix.node "/srv") "/srv/output"
                   "/srv/uploads/17-42.avi" "17-42")
                [JStr "360p"; JStr "720p"] in
  exists p,
    Http.run [Http.OnEnd 1; Http.OnError 0 "Conversion failed"]
             (Http.start js) = Some p
    /\ Http.response p
       = Some {| Http.status := 500;
                 Http.body := Http.ErrorBody "Conversion failed" |}.
Proof.
  intros js.
  pose proof (@http_first_error_is_the_answer js
                [Http.OnEnd 1; Http.OnError 0 "Conversion failed"]) as T.
  destruct (Http.run [Http.OnEnd 1; Http.OnError 0 "Conversion failed"]
                     (Http.start js))
    as [p|] eqn:R; [|vm_compute in R; discriminate].
  exists p. split; [reflexivity|].
  apply (T p "Conversion failed" eq_refl). reflexivity.
Defined.

(** X14.  For each of the four formats the HTTP extract-audio endpoint
    starts one job and names its output [<stem>.<format>], as the MCP tool
    does: for one stem and one directory the two output paths are equal.
    Without a [format] field, or with an empty one, the format is mp3; a
    format that is not one of the four is answered 400 with the list of
    the four, and no job is started. *)
Theorem http_extract_names_and_validates {N : NodeLib} (outputDir : string)
  (req : Http.Request) (file : Http.File) :
  Http.file req = Some file ->
  let stem := path_parse_name (Http.file_filename file) in
  (forall f input,
      Http.body_format req = Some (format_name f) ->
      exists job,
        Http.extractAudio outputDir req = Http.Processing job
        /\ Http.aj_input job = Http.file_path file
        /\ Http.aj_outputPath job
           = path_join outputDir (stem ++ "." ++ format_name f)
        /\ (stem = path_basename_ext input (path_extname input) ->
            Http.aj_outputPath job = extract_outputPath input outputDir f))
  /\ (Http.body_format req = None \/ Http.body_format req = Some "" ->
      exists job,
        Http.extractAudio outputDir req = Http.Processing job
        /\ Http.aj_format job = "mp3"
        /\ Http.aj_codec job = "libmp3lame"
        /\ Http.aj_outputPath job = path_join outputDir (stem ++ ".mp3"))
  /\ (forall s,
         Http.body_format req = Some s -> s <> "" ->
         ~ In s ["mp3"; "aac"; "wav"; "ogg"] ->
         Http.extractAudio outputDir req
         = Http.Responded
             {| Http.status := 400;
                Http.body := Http.ErrorOptions "Invalid audio format"
                               ["mp3"; "aac"; "wav"; "ogg"] |}).
Proof.
  intros F. cbv zeta. split; [|split].
  - intros f input B. unfold Http.extractAudio. rewrite F, B.
    destruct f; cbn; eexists; (split; [reflexivity|]);
      repeat split; intros ->; reflexivity.
  - intros [B|B]; unfold Http.extractAudio; rewrite F, B; cbn;
      eexists; repeat split.
  - intros s B NE NI. unfold Http.extractAudio. rewrite F, B.
    unfold js_or. cbn [truthy].
    destruct (String.eqb_spec s "") as [->|_]; [easy|]. cbn [negb].
    assert (V : includes Http.validFormats s = false).
    { unfold includes, Http.validFormats. cbn.
      repeat match goal with
             | |- context [String.eqb s ?x] =>
                 destruct (String.eqb_spec s x) as [->|_];
                 [exfalso; apply NI; cbn; tauto|]
             end.
      reflexivity. }
    rewrite V. reflexivity.
Qed.

Lemma http_extract_names_and_validates_witness :
  Http.extractAudio (N := Posix.node "/srv") "/srv/output"
    {| Http.file := Some {| Http.file_path := "/srv/uploads/17-42.avi";
                            Http.file_filename := "17-42.avi" |};
       Http.body_resolutions := None;
       Http.body_format := Some "flac" |}
  = Http.Responded
      {| Http.status := 400;
         Http.body := Http.ErrorOptions "Invalid audio format"
                        ["mp3"; "aac"; "wav"; "ogg"] |}.
Proof.
  apply (proj2 (proj2 (@http_extract_names_and_validates (Posix.node "/srv")
                         "/srv/output"
                         {| Http.file :=
                              Some {| Http.file_path := "/srv/uploads/17-42.avi";
                                      Http.file_filename := "17-42.avi" |};
                            Http.body_resolutions := None;
                            Http.body_format := Some "flac" |}
                         {| Http.file_path := "/srv/uploads/17-42.avi";
                            Http.file_filename := "17-42.avi" |}
                         eq_refl)) "flac");
    [reflexivity|discriminate|].
  cbn. intros [E|[E|[E|[E|[]]]]]; discriminate E.
Defined.

(** ** [server.js] and the wrapper script *)

Section PortFacts.
Context {W : Type} (listen : nat -> W -> Server.ListenOutcome * W).

Lemma probe_ports_run (turns : nat) :
  forall (port : nat) (w : W),
    let run := Server.probe_ports listen turns port w in
    let busy k := map (fun q => Server.Probed q false) (seq port k) in
    (exists k, k < turns
               /\ fst (fst run) = Fulfilled (Some (port + k))
               /\ snd run = (busy k ++ [Server.Probed (port + k) true])%list)
    \/ (fst (fst run) = Fulfilled None /\ snd run = busy turns)
    \/ (exists k e, k < turns
                    /\ fst (fst run) = Rejected e
                    /\ snd run = (busy k ++ [Server.Threw (port + k)])%list).
Proof.
  induction turns as [|turns IH]; intros port w; cbv zeta.
  - right. left. now split.
  - cbn [Server.probe_ports].
    destruct (Server.isPortAvailable listen port w) as [[[|]|e] w1].
    + left. exists 0. rewrite Nat.add_0_r. repeat split. lia.
    + specialize (IH (S port) w1). cbv zeta in IH.
      destruct (Server.probe_ports listen turns (S port) w1)
        as [[r w2] t]. cbn [fst snd] in *.
      destruct IH as [(k & L & -> & ->)|[[-> ->]|(k & e & L & -> & ->)]].
      * left. exists (S k). rewrite Nat.add_succ_r. repeat split. lia.
      * right. left. now split.
      * right. right. exists (S k), e. rewrite Nat.add_succ_r.
        repeat split. lia.
    + right. right. exists 0, e. rewrite Nat.add_0_r. repeat split. lia.
Qed.

End PortFacts.

(** X15.  [findAvailablePort] probes [startPort], [startPort + 1], ... in
    this order, at most [maxAttempts] ports, and stops at the first one
    reported available, which it returns: every port before it was
    reported in use.  When all [maxAttempts] ports are in use it fails with
    "Could not find an available port after <maxAttempts> attempts"; when
    [listen] throws, it fails with that exception and probes no further. *)
Theorem first_free_port {W : Type}
  (listen : nat -> W -> Server.ListenOutcome * W)
  (startPort maxAttempts : nat) (w : W) :
  let run := Server.findAvailablePort listen startPort maxAttempts w in
  let busy k := map (fun q => Server.Probed q false) (seq startPort k) in
  (exists k, k < maxAttempts
             /\ fst (fst run) = Fulfilled (startPort + k)
             /\ snd run
                = (busy k ++ [Server.Probed (startPort + k) true])%list)
  \/ (fst (fst run)
      = Rejected ("Could not find an available port after "
                    ++ show_nat maxAttempts ++ " attempts")
      /\ snd run = busy maxAttempts)
  \/ (exists k e, k < maxAttempts
                  /\ fst (fst run) = Rejected e
                  /\ snd run
                     = (busy k ++ [Server.Threw (startPort + k)])%list).
Proof.
  cbv zeta. unfold Server.findAvailablePort.
  pose proof (probe_ports_run listen maxAttempts startPort w) as P.
  cbv zeta in P.
  destruct (Server.probe_ports listen maxAttempts startPort w)
    as [[r w1] t]. cbn [fst snd] in P.
  destruct P as [(k & L & -> & ->)|[[-> ->]|(k & e & L & -> & ->)]].
  - left. now exists k.
  - right. left. now split.
  - right. right. now exists k, e.
Qed.

(** X16.  A port on which [listen] fails with any error other than
    [EADDRINUSE] is taken to be available: [findAvailablePort] returns it
    without probing another port. *)
Theorem unbindable_port_counts_as_free {W : Type}
  (listen : nat -> W -> Server.ListenOutcome * W)
  (startPort attempts : nat) (w w1 : W) (code : string) :
  listen startPort w = (Server.ListenError code, w1) ->
  code <> "EADDRINUSE" ->
  Server.findAvailablePort listen startPort (S attempts) w
  = (Fulfilled startPort, w1, [Server.Probed startPort true]).
Proof.
  intros L NE. unfold Server.findAvailablePort.
  cbn [Server.probe_ports]. unfold Server.isPortAvailable. rewrite L.
  destruct (String.eqb_spec code "EADDRINUSE") as [->|_]; [easy|].
  reflexivity.
Qed.

Lemma unbindable_port_counts_as_free_witness :
  Server.findAvailablePort (network [] [80]) 80 10 tt
  = (Fulfilled 80, tt, [Server.Probed 80 true]).
Proof.
  apply (@unbindable_port_counts_as_free unit (network [] [80]) 80 9 tt tt
           "EACCES"); [reflexivity|discriminate].
Defined.

(** On a machine where 3000 and 3001 are taken, the server gets 3002. *)
Example third_port :
  Server.findAvailablePort (network [3000; 3001] []) 3000 10 tt
  = (Fulfilled 3002, tt,
     [Server.Probed 3000 false; Server.Probed 3001 false;
      Server.Probed 3002 true]).
Proof. vm_compute. reflexivity. Qed.

Lemma uint_digits (d : Decimal.uint) :
  forallb is_digit (list_ascii_of_string (NilEmpty.string_of_uint d)) = true.
Proof. induction d; cbn; try reflexivity; exact IHd. Qed.

Lemma show_nat_digits (n : nat) :
  forallb is_digit (list_ascii_of_string (show_nat n)) = true.
Proof. apply uint_digits. Qed.

Lemma show_nat_nonempty (n : nat) : show_nat n <> "".
Proof.
  unfold show_nat. intros E.
  assert (Z : Nat.to_uint n = Decimal.Nil).
  { destruct (Nat.to_uint n); cbn in E; try discriminate. reflexivity. }
  pose proof (DecimalNat.Unsigned.to_of (Nat.to_uint n)) as T.
  rewrite DecimalNat.Unsigned.of_to, Z in T.
  symmetry in T. revert T. apply DecimalFacts.unorm_nonnil.
Qed.

Lemma parseInt_show_nat (n : nat) : parseInt (show_nat n) = n.
Proof.
  unfold parseInt, show_nat.
  rewrite NilEmpty.usu. apply DecimalNat.Unsigned.of_to.
Qed.

(** X17.  The wrapper script recovers the port the server announces on
    stdout: from a chunk whose first ["Server running on port "] is
    followed by the decimal digits of [port] it prints one line, the JSON
    object with the status, [port] as a number and the URL of that port;
    the two lines the server writes to stdout are such a chunk; from a
    chunk without ["Server running on port "] it prints nothing. *)
Theorem wrapper_repeats_the_port (port : nat) (pre rest data : string) :
  (port < 2 ^ 16 ->
   data = pre ++ "Server running on port " ++ show_nat port ++ rest ->
   (forall p q, data = p ++ "Server running on port " ++ q ->
                String.length pre <= String.length p) ->
   match rest with
   | EmptyString => True
   | String c _ => is_digit c = false
   end ->
   Server.on_stdout_data data
   = Some (Server.status_json port ("http://localhost:" ++ show_nat port)
             ++ nl))
  /\ (port < 2 ^ 16 ->
      Server.on_stdout_data (Server.announce_stdout port)
      = Some (Server.status_json port ("http://localhost:" ++ show_nat port)
                ++ nl))
  /\ ((forall pre' post, data <> pre' ++ "Server running on port " ++ post) ->
      Server.on_stdout_data data = None).
Proof.
  assert (A : forall rest',
             match rest' with
             | EmptyString => True
             | String c _ => is_digit c = false
             end ->
             Server.on_stdout_data
               ("Server running on port " ++ show_nat port ++ rest')
             = Some (Server.status_json port
                       ("http://localhost:" ++ show_nat port) ++ nl)).
  { intros rest' R. unfold Server.on_stdout_data.
    rewrite (@regex_capture_at_start "Server running on port "
               (take_while is_digit) (show_nat port) rest'
               (show_nat_nonempty port)
               (@take_while_app is_digit (show_nat port) rest'
                  (show_nat_digits port) R)).
    cbn [truthy]. destruct (String.eqb_spec (show_nat port) "") as [E|_];
      [now apply show_nat_nonempty in E|].
    cbn [negb]. now rewrite parseInt_show_nat. }
  split; [|split].
  - intros _ E F R. rewrite <- (A rest R). unfold Server.on_stdout_data.
    rewrite E in *.
    now rewrite (@regex_capture_first "Server running on port "
                   (take_while is_digit) pre _ F).
  - intros _. unfold Server.announce_stdout. now apply A.
  - intros NO. unfold Server.on_stdout_data.
    destruct (regex_capture "Server running on port " (take_while is_digit)
                            data) as [g|] eqn:E; [|reflexivity].
    apply regex_capture_sound in E as (pre' & tail & E & _).
    exfalso. exact (NO pre' tail E).
Qed.

Lemma wrapper_repeats_the_port_witness :
  Server.on_stdout_data (Server.announce_stdout 3000)
  = Some ("{" ++ dq ++ "status" ++ dq ++ ":" ++ dq ++ "running" ++ dq ++ ","
            ++ dq ++ "port" ++ dq ++ ":3000,"
            ++ dq ++ "url" ++ dq ++ ":" ++ dq ++ "http://localhost:3000"
            ++ dq ++ "}" ++ nl)
  /\ Server.on_stdout_data
       ("GET / 200 3.1 ms" ++ nl ++ "Server running on port 3456" ++ nl)
     = Some ("{" ++ dq ++ "status" ++ dq ++ ":" ++ dq ++ "running" ++ dq ++ ","
               ++ dq ++ "port" ++ dq ++ ":3456,"
               ++ dq ++ "url" ++ dq ++ ":" ++ dq ++ "http://localhost:3456"
               ++ dq ++ "}" ++ nl).
Proof.
  split.
  - apply (proj1 (proj2 (wrapper_repeats_the_port 3000 "" "" ""))).
    apply Nat.ltb_lt. vm_compute. reflexivity.
  - apply (proj1 (wrapper_repeats_the_port 3456 ("GET / 200 3.1 ms" ++ nl)
                    nl ("GET / 200 3.1 ms" ++ nl
                          ++ "Server running on port 3456" ++ nl))).
    + apply Nat.ltb_lt. vm_compute. reflexivity.
    + reflexivity.
    + intros p q E.
      destruct (Nat.le_gt_cases (String.length ("GET / 200 3.1 ms" ++ nl))
                                (String.length p)) as [L|L]; [exact L|].
      exfalso. revert E L.
      repeat (destruct p as [|? p];
              [cbn; intros E; discriminate E|]).
      cbn. intros _ L. lia.
    + reflexivity.
Defined.
